(** * Manager layer of the batch escape-room simulator (src/mgr.cpp, src/sim.hpp)

    A shallow embedding of the orchestration code: the backend selection of
    [Manager::Impl::init], the asset set-up of [loadPhysicsObjects], the
    constructor's forced reset, the per-world control writes, the tensor
    accessors and the stream pipeline of [CUDAImpl::gpuRollout].

    Conventions.
    - Fixed-width integers are [Z]; a cast that can change the value is written
      out ([to_int32], [to_uint64]).
    - binary32 values are [spec_float] (sign, mantissa, exponent); the code
      only stores literals, it performs no floating-point arithmetic.
    - A write through a pointer that leaves the pointed-to array has no defined
      result in C++; the model returns [Undefined] there.
    - [FATAL] terminates the process; the model returns [Fatal msg].
    - The headers mgr.hpp, consts.hpp, types.hpp, init.hpp and the engine
      library are not part of the sources; what the code needs from them is a
      field of the class [Platform]. *)

From Stdlib Require Import ZArith Ascii String List Bool Lia.
From Stdlib Require Import Floats.SpecFloat.
From stdpp Require Import base list.
Import ListNotations.
Local Open Scope string_scope.
Local Open Scope list_scope.
Local Open Scope Z_scope.

(** ** Outcomes of a call *)

(** [Ok a]: the call returns [a].  [Fatal msg]: the call reaches the
    engine's [FATAL] (or a checked CUDA call fails) and the process stops
    with the diagnostic [msg].  [Undefined]: the call leaves the behaviour
    the language defines. *)
Inductive Outcome (A : Type) : Type :=
  | Ok (a : A)
  | Fatal (msg : string)
  | Undefined.
Arguments Ok {A} a.
Arguments Fatal {A} msg.
Arguments Undefined {A}.

Definition bind {A B : Type} (m : Outcome A) (k : A -> Outcome B) : Outcome B :=
  match m with
  | Ok a => k a
  | Fatal msg => Fatal msg
  | Undefined => Undefined
  end.

Notation "'do' x <- m ; k" := (bind m (fun x => k))
  (at level 10, x name, m at level 100, k at level 200).

Fixpoint foldM {A S : Type} (f : S -> A -> Outcome S) (xs : list A) (s : S)
  : Outcome S :=
  match xs with
  | [] => Ok s
  | x :: xs' => do s' <- f s x; foldM f xs' s'
  end.

(** ** Machine integers *)

Definition INT32_MAX : Z := 2147483647.
Definition two64 : Z := 18446744073709551616.

(** [(int32_t)x] for an unsigned 32-bit [x]. *)
Definition to_int32 (x : Z) : Z := (x + 2147483648) mod 4294967296 - 2147483648.

(** A value reduced to 32 unsigned bits: the result of unsigned 32-bit
    arithmetic. *)
Definition to_uint32 (x : Z) : Z := x mod 4294967296.

(** [(uint64_t)x]. *)
Definition to_uint64 (x : Z) : Z := x mod two64.

(** The values [0, 1, ..., n-1] taken by the counter of
    [for (i = 0; i < n; i++)]; none when [n <= 0]. *)
Definition counter_values (n : Z) : list Z :=
  map Z.of_nat (seq 0 (Z.to_nat n)).

(** ** sim.hpp: export slots and object kinds *)

Inductive ExportID : Type :=
  | Reset | Action_ | Reward | Done | SelfObservation | AgentID
  | PartnerObservations | RoomEntityObservations | DoorObservation
  | Lidar | StepsRemaining | Checkpoint | CheckpointReset_ | CheckpointSave_.

Definition ExportID_val (e : ExportID) : Z :=
  match e with
  | Reset => 0 | Action_ => 1 | Reward => 2 | Done => 3
  | SelfObservation => 4 | AgentID => 5 | PartnerObservations => 6
  | RoomEntityObservations => 7 | DoorObservation => 8 | Lidar => 9
  | StepsRemaining => 10 | Checkpoint => 11 | CheckpointReset_ => 12
  | CheckpointSave_ => 13
  end.
Definition ExportID_NumExports : Z := 14.

Inductive SimObject : Type :=
  | Cube | Wall | Door | Agent | Button | Key | Plane.

Definition SimObject_val (o : SimObject) : Z :=
  match o with
  | Cube => 0 | Wall => 1 | Door => 2 | Agent => 3
  | Button => 4 | Key => 5 | Plane => 6
  end.
Definition SimObject_NumObjects : Z := 7.

(** ** Control records (types.hpp): one 32-bit flag each, and the action *)

Record WorldReset := { reset : Z }.
Record CheckpointSave := { save : Z }.
Record CheckpointReset := { ckpt_reset : Z }.
Record Action := {
  moveAmount : Z;
  moveAngle : Z;
  rotate : Z;
  interact : Z
}.

(** ** Tensors (the engine's python-facing handle) *)

Definition Ptr : Type := Z.

Inductive ElementType : Type :=
  | UInt8 | Int8 | Int16 | Int32 | Int64 | Float16 | Float32.

Definition numBytesPerItem_of (ty : ElementType) : Z :=
  match ty with
  | UInt8 | Int8 => 1
  | Int16 | Float16 => 2
  | Int32 | Float32 => 4
  | Int64 => 8
  end.

Record Tensor := {
  devicePtr : Ptr;
  type : ElementType;
  dims : list Z;
  gpu_id : option Z
}.

Definition numDims (t : Tensor) : Z := Z.of_nat (length (dims t)).
Definition numBytesPerItem (t : Tensor) : Z := numBytesPerItem_of (type t).

Record NamedTensor := { name : string; hdl : Tensor }.

Record TrainInterface := {
  observations : list NamedTensor;
  actions : Tensor;
  rewards : Tensor;
  dones : Tensor;
  resets : Tensor;
  policyAssignments : option Tensor;
  stats : list NamedTensor
}.

(** ** Configuration *)

Definition ExecMode_CPU : Z := 0.
Definition ExecMode_CUDA : Z := 1.

Record Config := {
  execMode : Z;
  gpuID : Z;
  numWorlds : Z;
  cfg_autoReset : bool;
  cfg_simFlags : Z;
  cfg_rewardMode : Z;
  cfg_buttonWidth : spec_float;
  cfg_doorWidth : spec_float
}.

Record Sim_Config := {
  enableViewer : bool;
  autoReset : bool;
  simFlags : Z;
  rewardMode : Z;
  buttonWidth : spec_float;
  doorWidth : spec_float;
  rewardPerDist : spec_float;
  slackReward : spec_float
}.

(** ** binary32 literals used by the asset set-up *)

Definition f32_0 : spec_float := S754_zero false.
Definition f32_1 : spec_float := S754_finite false 8388608 (-23).
Definition f32_0_5 : spec_float := S754_finite false 8388608 (-24).
Definition f32_0_75 : spec_float := S754_finite false 12582912 (-24).
Definition f32_0_075 : spec_float := S754_finite false 10066330 (-27).

(** ** Physics assets *)

Module Vector3.
Record t := { x : spec_float; y : spec_float; z : spec_float }.
End Vector3.

Record RigidBodyFrictionData := { muS : spec_float; muD : spec_float }.

Record RigidBodyMassData := {
  md_invMass : spec_float;
  invInertiaTensor : Vector3.t
}.

Record RigidBodyMetadata := {
  mass : RigidBodyMassData;
  md_friction : RigidBodyFrictionData
}.

Inductive CollisionPrimitiveType : Type := Hull | PlanePrim.

Record SourceCollisionPrimitive := {
  prim_type : CollisionPrimitiveType;
  hullIDX : option Z
}.

Record SourceCollisionObject := {
  prims : list SourceCollisionPrimitive;
  invMass : spec_float;
  friction : RigidBodyFrictionData
}.

Record RigidBodyAssets := {
  metadatas : list RigidBodyMetadata;
  numObjs : Z
}.

Record PhysicsLoader := {
  loaderMode : Z;
  maxObjects : Z;
  loadedBodies : list RigidBodyAssets
}.

Definition PhysicsLoader_new (mode max_objs : Z) : PhysicsLoader :=
  {| loaderMode := mode; maxObjects := max_objs; loadedBodies := [] |}.

Definition loadRigidBodies (loader : PhysicsLoader) (assets : RigidBodyAssets)
  : PhysicsLoader :=
  {| loaderMode := loaderMode loader;
     maxObjects := maxObjects loader;
     loadedBodies := loadedBodies loader ++ [assets] |}.

(** ** World initialisation records and exported control memory *)

Record EpisodeManager := { curEpisode : Z }.

Record WorldInit := {
  wi_episodeMgr : EpisodeManager;
  wi_rigidBodyObjMgr : list RigidBodyAssets;
  wi_vizBridge : option Z;
  wi_progress : spec_float
}.

Record Exports := {
  resetBuf : list WorldReset;
  actionBuf : list Action;
  saveBuf : list CheckpointSave;
  loadBuf : list CheckpointReset
}.

Inductive ImplKind : Type := CPUImpl | CUDAImpl.

(** ** What the build and the engine supply *)

Class Platform := {
  (** preprocessor symbols *)
  MADRONA_CUDA_SUPPORT : bool;
  NDEBUG : bool;
  DATA_DIR : string;
  (** consts.hpp and sizeof of types.hpp records *)
  numAgents : Z;
  maxObservationsPerAgent : Z;
  numLidarSamples : Z;
  sizeof_Checkpoint : Z;
  sizeof_SelfObservation : Z;
  (** importer: an error text, or one list of meshes per path *)
  SourceMesh : Type;
  importFromDisk : list string -> string + list (list SourceMesh);
  (** rigid-body processing: [None] is the null return *)
  processRigidBodyAssets :
    list SourceMesh -> list SourceCollisionObject -> bool ->
    option RigidBodyAssets;
  (** CUDA runtime set-up ([initCUDA], [allocGPU], checked [cudaMemset]) *)
  cudaSetup : Z -> bool;
  (** task-graph executors: construction, exported pointers, one pass *)
  SimState : Type;
  executorNew :
    ImplKind -> Z -> Z -> Sim_Config -> list WorldInit -> Exports * SimState;
  getExported : ImplKind -> Z -> Ptr;
  taskgraph : ImplKind -> Exports * SimState -> Exports * SimState
}.

(** ** Writes through a pointer into an array *)

(** [buf[idx] = v]: defined only inside the array. *)
Definition store {A : Type} (buf : list A) (idx : Z) (v : A) : Outcome (list A) :=
  if (0 <=? idx) && (idx <? Z.of_nat (length buf))
  then Ok (<[Z.to_nat idx := v]> buf)
  else Undefined.

(** [f(buf[idx])] applied in place: defined only inside the array. *)
Definition modify_at {A : Type} (buf : list A) (idx : Z) (f : A -> A)
  : Outcome (list A) :=
  if 0 <=? idx then
    match buf !! Z.to_nat idx with
    | Some a => Ok (<[Z.to_nat idx := f a]> buf)
    | None => Undefined
    end
  else Undefined.

(** [buf[idx]] read: defined only inside the array. *)
Definition load {A : Type} (buf : list A) (idx : Z) : Outcome A :=
  if 0 <=? idx then
    match buf !! Z.to_nat idx with
    | Some a => Ok a
    | None => Undefined
    end
  else Undefined.

(** ** std::filesystem::path(dir) / file, rendered as a string *)

Fixpoint last_char (s : string) : option Ascii.ascii :=
  match s with
  | EmptyString => None
  | String c EmptyString => Some c
  | String _ s' => last_char s'
  end.

Definition path_join (dir file : string) : string :=
  match last_char dir with
  | None => file
  | Some c =>
      if Ascii.eqb c "/"%char then String.append dir file
      else String.append dir (String.append "/" file)
  end.

Section Model.
Context `{P : Platform}.

(** ** loadPhysicsObjects *)

Definition asset_paths : list string :=
  let a := replicate (Z.to_nat (SimObject_NumObjects - 1)) "" in
  let a := <[Z.to_nat (SimObject_val Cube) :=
               path_join DATA_DIR "cube_collision.obj"]> a in
  let a := <[Z.to_nat (SimObject_val Wall) :=
               path_join DATA_DIR "wall_collision.obj"]> a in
  let a := <[Z.to_nat (SimObject_val Door) :=
               path_join DATA_DIR "wall_collision.obj"]> a in
  let a := <[Z.to_nat (SimObject_val Agent) :=
               path_join DATA_DIR "agent_collision_simplified.obj"]> a in
  let a := <[Z.to_nat (SimObject_val Button) :=
               path_join DATA_DIR "cube_collision.obj"]> a in
  let a := <[Z.to_nat (SimObject_val Key) :=
               path_join DATA_DIR "cube_collision.obj"]> a in
  a.

(** The three arrays the [setupHull] lambda captures by reference. *)
Record HullSetup := {
  src_convex_hulls : list SourceMesh;
  prim_arrays : list (list SourceCollisionPrimitive);
  src_objs : list SourceCollisionObject
}.

Definition uninit_obj : SourceCollisionObject :=
  {| prims := []; invMass := f32_0; friction := {| muS := f32_0; muD := f32_0 |} |}.

(** The loop over the meshes of one object: each mesh is appended to the
    hull array and a hull primitive naming its position is appended. *)
Fixpoint push_meshes (meshes : list SourceMesh)
  (hulls : list SourceMesh) (ps : list SourceCollisionPrimitive)
  : list SourceMesh * list SourceCollisionPrimitive :=
  match meshes with
  | [] => (hulls, ps)
  | mesh :: rest =>
      let hulls' := hulls ++ [mesh] in
      let ps' := ps ++ [ {| prim_type := Hull;
                            hullIDX := Some ((Z.of_nat (length hulls') - 1)
                                             mod 4294967296) |} ] in
      push_meshes rest hulls' ps'
  end.

Definition setupHull (objects : list (list SourceMesh))
  (obj_id : SimObject) (inv_mass : spec_float) (fr : RigidBodyFrictionData)
  (st : HullSetup) : Outcome HullSetup :=
  do meshes <- load objects (SimObject_val obj_id);
  let '(hulls, ps) := push_meshes meshes (src_convex_hulls st) [] in
  let arrays := prim_arrays st ++ [ps] in
  do objs <- store (src_objs st) (SimObject_val obj_id)
               {| prims := ps; invMass := inv_mass; friction := fr |};
  Ok {| src_convex_hulls := hulls; prim_arrays := arrays; src_objs := objs |}.

Definition plane_prim : SourceCollisionPrimitive :=
  {| prim_type := PlanePrim; hullIDX := None |}.

Definition set_invInertia_x (v : spec_float) (md : RigidBodyMetadata)
  : RigidBodyMetadata :=
  {| mass := {| md_invMass := md_invMass (mass md);
                invInertiaTensor :=
                  {| Vector3.x := v;
                     Vector3.y := Vector3.y (invInertiaTensor (mass md));
                     Vector3.z := Vector3.z (invInertiaTensor (mass md)) |} |};
     md_friction := md_friction md |}.

Definition set_invInertia_y (v : spec_float) (md : RigidBodyMetadata)
  : RigidBodyMetadata :=
  {| mass := {| md_invMass := md_invMass (mass md);
                invInertiaTensor :=
                  {| Vector3.x := Vector3.x (invInertiaTensor (mass md));
                     Vector3.y := v;
                     Vector3.z := Vector3.z (invInertiaTensor (mass md)) |} |};
     md_friction := md_friction md |}.

Definition with_metadatas (a : RigidBodyAssets) (mds : list RigidBodyMetadata)
  : RigidBodyAssets :=
  {| metadatas := mds; numObjs := numObjs a |}.

(** Everything up to the call of [processRigidBodyAssets]: the imported
    hulls and the seven source objects. *)
Definition buildSourceObjects : Outcome HullSetup :=
  match importFromDisk asset_paths with
  | inl import_err_buffer => Fatal import_err_buffer
  | inr objects =>
      let st := {| src_convex_hulls := [];
                   prim_arrays := [];
                   src_objs := replicate (Z.to_nat SimObject_NumObjects)
                                 uninit_obj |} in
      do st <- setupHull objects Cube f32_0_075
                 {| muS := f32_0_5; muD := f32_0_75 |} st;
      do st <- setupHull objects Wall f32_0
                 {| muS := f32_0_5; muD := f32_0_5 |} st;
      do st <- setupHull objects Door f32_0
                 {| muS := f32_0_5; muD := f32_0_5 |} st;
      do st <- setupHull objects Agent f32_1
                 {| muS := f32_0_5; muD := f32_0_5 |} st;
      do st <- setupHull objects Button f32_1
                 {| muS := f32_0_5; muD := f32_0_5 |} st;
      do st <- setupHull objects Key f32_1
                 {| muS := f32_0_5; muD := f32_0_5 |} st;
      do objs <- store (src_objs st) (SimObject_val Plane)
                   {| prims := [plane_prim]; invMass := f32_0;
                      friction := {| muS := f32_0_5; muD := f32_0_5 |} |};
      Ok {| src_convex_hulls := src_convex_hulls st;
            prim_arrays := prim_arrays st;
            src_objs := objs |}
  end.

(** The catalog after the two assignments to the agent's inverse inertia,
    as it is passed to [loader.loadRigidBodies]. *)
Definition constrainAgent (rigid_body_assets : RigidBodyAssets)
  : Outcome RigidBodyAssets :=
  do mds <- modify_at (metadatas rigid_body_assets) (SimObject_val Agent)
              (set_invInertia_x f32_0);
  do mds <- modify_at mds (SimObject_val Agent) (set_invInertia_y f32_0);
  Ok (with_metadatas rigid_body_assets mds).

Definition loadPhysicsObjects (loader : PhysicsLoader) : Outcome PhysicsLoader :=
  do st <- buildSourceObjects;
  match processRigidBodyAssets (src_convex_hulls st) (src_objs st) false with
  | None => Fatal "Invalid collision hull input"
  | Some rigid_body_assets =>
      do rigid_body_assets <- constrainAgent rigid_body_assets;
      Ok (loadRigidBodies loader rigid_body_assets)
  end.

(** ** Manager::Impl and its two variants *)

(** The struct's four buffer pointers are the base addresses of the
    executor's exported regions; [exported] holds the regions themselves,
    so a write through a pointer and the executor's next pass see the same
    memory.  [runCount] is a ghost counter of executor passes. *)
Record Impl := {
  kind : ImplKind;
  cfg : Config;
  physicsLoader : PhysicsLoader;
  episodeMgr : EpisodeManager;
  exported : Exports;
  simState : SimState;
  runCount : nat
}.

Definition Impl_run (impl : Impl) : Impl :=
  let '(mem, st) := taskgraph (kind impl) (exported impl, simState impl) in
  {| kind := kind impl;
     cfg := cfg impl;
     physicsLoader := physicsLoader impl;
     episodeMgr := episodeMgr impl;
     exported := mem;
     simState := st;
     runCount := S (runCount impl) |}.

Definition with_exported (impl : Impl) (mem : Exports) : Impl :=
  {| kind := kind impl;
     cfg := cfg impl;
     physicsLoader := physicsLoader impl;
     episodeMgr := episodeMgr impl;
     exported := mem;
     simState := simState impl;
     runCount := runCount impl |}.

Definition exportTensor (impl : Impl) (slot : ExportID) (ty : ElementType)
  (dimensions : list Z) : Tensor :=
  {| devicePtr := getExported (kind impl) (ExportID_val slot);
     type := ty;
     dims := dimensions;
     gpu_id := match kind impl with
               | CPUImpl => None
               | CUDAImpl => Some (gpuID (cfg impl))
               end |}.

(** Modelled from the spec: the macro [MADRONA_UNREACHABLE] of the engine's
    headers, which section 7 lists with the process-terminating failures
    ("an unreachable backend-selector value"). *)
Definition MADRONA_UNREACHABLE {A : Type} : Outcome A :=
  Fatal "unreachable".

(** The part of one [case] that both backends share: assets, per-world
    init records, executor, and the assembled object. *)
Definition init_backend (k : ImplKind) (mgr_cfg : Config)
  (viz_bridge : option Z) (sim_cfg : Sim_Config) : Outcome Impl :=
  let episode_mgr := {| curEpisode := 0 |} in
  let progress := f32_0 in
  let mode := match k with CPUImpl => ExecMode_CPU | CUDAImpl => ExecMode_CUDA end in
  do phys_loader <- loadPhysicsObjects (PhysicsLoader_new mode 10);
  let world_inits :=
    map (fun _ => {| wi_episodeMgr := episode_mgr;
                     wi_rigidBodyObjMgr := loadedBodies phys_loader;
                     wi_vizBridge := viz_bridge;
                     wi_progress := progress |})
        (counter_values (numWorlds mgr_cfg)) in
  let '(mem, st) :=
    executorNew k (numWorlds mgr_cfg) ExportID_NumExports sim_cfg world_inits in
  Ok {| kind := k;
        cfg := mgr_cfg;
        physicsLoader := phys_loader;
        episodeMgr := episode_mgr;
        exported := mem;
        simState := st;
        runCount := 0 |}.

Definition Impl_init (mgr_cfg : Config) (viz_bridge : option Z) : Outcome Impl :=
  let sim_cfg :=
    {| enableViewer := match viz_bridge with Some _ => true | None => false end;
       autoReset := cfg_autoReset mgr_cfg;
       simFlags := cfg_simFlags mgr_cfg;
       rewardMode := cfg_rewardMode mgr_cfg;
       buttonWidth := cfg_buttonWidth mgr_cfg;
       doorWidth := cfg_doorWidth mgr_cfg;
       rewardPerDist := f32_0;
       slackReward := f32_0 |} in
  if execMode mgr_cfg =? ExecMode_CUDA then
    if MADRONA_CUDA_SUPPORT then
      if cudaSetup (gpuID mgr_cfg)
      then init_backend CUDAImpl mgr_cfg viz_bridge sim_cfg
      else Fatal "CUDA error"
    else Fatal "Madrona was not compiled with CUDA support"
  else if execMode mgr_cfg =? ExecMode_CPU then
    init_backend CPUImpl mgr_cfg viz_bridge sim_cfg
  else MADRONA_UNREACHABLE.

(** ** Manager *)

Record Manager := { impl_ : Impl }.

Definition step (m : Manager) : Manager :=
  {| impl_ := Impl_run (impl_ m) |}.

Definition set_resetBuf (mem : Exports) (b : list WorldReset) : Exports :=
  {| resetBuf := b; actionBuf := actionBuf mem;
     saveBuf := saveBuf mem; loadBuf := loadBuf mem |}.
Definition set_actionBuf (mem : Exports) (b : list Action) : Exports :=
  {| resetBuf := resetBuf mem; actionBuf := b;
     saveBuf := saveBuf mem; loadBuf := loadBuf mem |}.
Definition set_saveBuf (mem : Exports) (b : list CheckpointSave) : Exports :=
  {| resetBuf := resetBuf mem; actionBuf := actionBuf mem;
     saveBuf := b; loadBuf := loadBuf mem |}.
Definition set_loadBuf (mem : Exports) (b : list CheckpointReset) : Exports :=
  {| resetBuf := resetBuf mem; actionBuf := actionBuf mem;
     saveBuf := saveBuf mem; loadBuf := b |}.

(** The shared shape of the four control writes: on the CUDA backend the
    write is a synchronous host-to-device [cudaMemcpy] (its status is not
    inspected; the copy is taken to land) that exists only in a CUDA
    build; otherwise it is a plain store. *)
Definition control_write (m : Manager) (w : Exports -> Outcome Exports)
  : Outcome Manager :=
  if execMode (cfg (impl_ m)) =? ExecMode_CUDA then
    if MADRONA_CUDA_SUPPORT then
      do mem <- w (exported (impl_ m));
      Ok {| impl_ := with_exported (impl_ m) mem |}
    else Ok m
  else
    do mem <- w (exported (impl_ m));
    Ok {| impl_ := with_exported (impl_ m) mem |}.

Definition triggerReset (m : Manager) (world_idx : Z) : Outcome Manager :=
  let reset_ := {| reset := 1 |} in
  control_write m (fun mem =>
    do b <- store (resetBuf mem) world_idx reset_; Ok (set_resetBuf mem b)).

(** The slot is [agentActionsBuffer + world_idx * numAgents + agent_idx];
    the offset is computed without wrap-around, [consts::numAgents] being
    one of the constants of the absent consts.hpp. *)
Definition setAction (m : Manager)
  (world_idx agent_idx move_amount move_angle rotate_ interact_ : Z)
  : Outcome Manager :=
  let action := {| moveAmount := move_amount;
                   moveAngle := move_angle;
                   rotate := rotate_;
                   interact := interact_ |} in
  control_write m (fun mem =>
    do b <- store (actionBuf mem) (world_idx * numAgents + agent_idx) action;
    Ok (set_actionBuf mem b)).

Definition setSaveCheckpoint (m : Manager) (world_idx value : Z)
  : Outcome Manager :=
  let save_ := {| save := value |} in
  control_write m (fun mem =>
    do b <- store (saveBuf mem) world_idx save_; Ok (set_saveBuf mem b)).

Definition triggerLoadCheckpoint (m : Manager) (world_idx : Z)
  : Outcome Manager :=
  let load_ := {| ckpt_reset := 1 |} in
  control_write m (fun mem =>
    do b <- store (loadBuf mem) world_idx load_; Ok (set_loadBuf mem b)).

(** The constructor: backend, then [triggerReset(i)] for the values of the
    32-bit counter below [(int32_t)cfg.numWorlds], then one [step()]. *)
Definition Manager_new (cfg_ : Config) (viz_bridge : option Z)
  : Outcome Manager :=
  do impl <- Impl_init cfg_ viz_bridge;
  do m <- foldM triggerReset (counter_values (to_int32 (numWorlds cfg_)))
            {| impl_ := impl |};
  Ok (step m).

(** ** Tensor accessors *)

(** The per-agent tensors lead with [cfg.numWorlds * consts::numAgents]:
    the product of the 32-bit world count and the agent count is taken in
    32 unsigned bits and only then widened to the [int64_t] dimension. *)

Definition checkpointResetTensor (m : Manager) : Tensor :=
  exportTensor (impl_ m) CheckpointReset_ Int32
    [numWorlds (cfg (impl_ m)); 1].

Definition checkpointTensor (m : Manager) : Tensor :=
  exportTensor (impl_ m) Checkpoint UInt8
    [numWorlds (cfg (impl_ m)); sizeof_Checkpoint].

Definition resetTensor (m : Manager) : Tensor :=
  exportTensor (impl_ m) Reset Int32
    [numWorlds (cfg (impl_ m)); 1].

Definition actionTensor (m : Manager) : Tensor :=
  exportTensor (impl_ m) Action_ Int32
    [to_uint32 (numWorlds (cfg (impl_ m)) * numAgents); 4].

Definition rewardTensor (m : Manager) : Tensor :=
  exportTensor (impl_ m) Reward Float32
    [to_uint32 (numWorlds (cfg (impl_ m)) * numAgents); 1].

Definition doneTensor (m : Manager) : Tensor :=
  exportTensor (impl_ m) Done Int32
    [to_uint32 (numWorlds (cfg (impl_ m)) * numAgents); 1].

Definition selfObservationTensor (m : Manager) : Tensor :=
  exportTensor (impl_ m) SelfObservation Float32
    [to_uint32 (numWorlds (cfg (impl_ m)) * numAgents); sizeof_SelfObservation / 4].

Definition partnerObservationsTensor (m : Manager) : Tensor :=
  exportTensor (impl_ m) PartnerObservations Float32
    [to_uint32 (numWorlds (cfg (impl_ m)) * numAgents); numAgents - 1; 3].

Definition roomEntityObservationsTensor (m : Manager) : Tensor :=
  exportTensor (impl_ m) RoomEntityObservations Float32
    [to_uint32 (numWorlds (cfg (impl_ m)) * numAgents); maxObservationsPerAgent; 3].

Definition doorObservationTensor (m : Manager) : Tensor :=
  exportTensor (impl_ m) DoorObservation Float32
    [to_uint32 (numWorlds (cfg (impl_ m)) * numAgents); 1; 3].

Definition lidarTensor (m : Manager) : Tensor :=
  exportTensor (impl_ m) Lidar Float32
    [to_uint32 (numWorlds (cfg (impl_ m)) * numAgents); numLidarSamples; 2].

Definition stepsRemainingTensor (m : Manager) : Tensor :=
  exportTensor (impl_ m) StepsRemaining Int32
    [to_uint32 (numWorlds (cfg (impl_ m)) * numAgents); 1].

Definition agentIDTensor (m : Manager) : Tensor :=
  exportTensor (impl_ m) AgentID Int32
    [to_uint32 (numWorlds (cfg (impl_ m)) * numAgents); 1].

Definition trainInterface (m : Manager) : TrainInterface :=
  {| observations :=
       [ {| name := "self"; hdl := selfObservationTensor m |};
         {| name := "partners"; hdl := partnerObservationsTensor m |};
         {| name := "roomEntities"; hdl := roomEntityObservationsTensor m |};
         {| name := "door"; hdl := doorObservationTensor m |};
         {| name := "lidar"; hdl := lidarTensor m |};
         {| name := "stepsRemaining"; hdl := stepsRemainingTensor m |};
         {| name := "agentID"; hdl := agentIDTensor m |} ];
     actions := actionTensor m;
     rewards := rewardTensor m;
     dones := doneTensor m;
     resets := resetTensor m;
     policyAssignments := None;
     stats := [] |}.

(** The thirteen accessors, as one enumeration. *)
Inductive Accessor : Type :=
  | AccCheckpointReset | AccCheckpoint | AccReset | AccAction | AccReward
  | AccDone | AccSelfObservation | AccPartnerObservations
  | AccRoomEntityObservations | AccDoorObservation | AccLidar
  | AccStepsRemaining | AccAgentID.

Definition access (a : Accessor) (m : Manager) : Tensor :=
  match a with
  | AccCheckpointReset => checkpointResetTensor m
  | AccCheckpoint => checkpointTensor m
  | AccReset => resetTensor m
  | AccAction => actionTensor m
  | AccReward => rewardTensor m
  | AccDone => doneTensor m
  | AccSelfObservation => selfObservationTensor m
  | AccPartnerObservations => partnerObservationsTensor m
  | AccRoomEntityObservations => roomEntityObservationsTensor m
  | AccDoorObservation => doorObservationTensor m
  | AccLidar => lidarTensor m
  | AccStepsRemaining => stepsRemainingTensor m
  | AccAgentID => agentIDTensor m
  end.

(** ** Steps and control writes, and sequences of them *)

(** [Call] names [step] and the four control writes.  The CUDA-only
    [gpuRolloutStep] is not among them: it overwrites the action and reset
    regions from the caller's buffers and launches the executor on a
    stream, and is modelled apart, by the queue it builds. *)

Inductive Call : Type :=
  | CallStep
  | CallTriggerReset (world_idx : Z)
  | CallSetAction (world_idx agent_idx move_amount move_angle rotate_ interact_ : Z)
  | CallSetSaveCheckpoint (world_idx value : Z)
  | CallTriggerLoadCheckpoint (world_idx : Z).

Definition call (m : Manager) (c : Call) : Outcome Manager :=
  match c with
  | CallStep => Ok (step m)
  | CallTriggerReset w => triggerReset m w
  | CallSetAction w a ma mg r i => setAction m w a ma mg r i
  | CallSetSaveCheckpoint w v => setSaveCheckpoint m w v
  | CallTriggerLoadCheckpoint w => triggerLoadCheckpoint m w
  end.

Definition calls (cs : list Call) (m : Manager) : Outcome Manager :=
  foldM call cs m.

Definition is_step (c : Call) : bool :=
  match c with CallStep => true | _ => false end.

(** ** CUDAImpl::gpuRollout *)

Inductive StreamOp : Type :=
  | MemcpyAsyncD2D (dst src : Ptr) (num_bytes : Z) (strm : Z)
  | RunAsync (strm : Z).

Definition numTensorBytes (t : Tensor) : Z :=
  let num_items :=
    fold_left (fun num_items d => (num_items * to_uint64 d) mod two64)
              (dims t) 1 in
  (num_items * to_uint64 (numBytesPerItem t)) mod two64.

Definition copyToSim (strm : Z) (dst : Tensor) (src : Ptr) : StreamOp :=
  let num_bytes := numTensorBytes dst in
  MemcpyAsyncD2D (devicePtr dst) src num_bytes strm.

Definition copyFromSim (strm : Z) (dst : Ptr) (src : Tensor) : StreamOp :=
  let num_bytes := numTensorBytes src in
  MemcpyAsyncD2D dst (devicePtr src) num_bytes strm.

(** The running index and the operations enqueued on the stream so far. *)
Record Rollout := { cur_idx : Z; queue : list StreamOp }.

Definition enqueue (op : StreamOp) (r : Rollout) : Rollout :=
  {| cur_idx := cur_idx r; queue := queue r ++ [op] |}.

(** [copyToSim(t, bufs[cur_idx++])] *)
Definition copy_in (strm : Z) (bufs : Z -> Ptr) (t : Tensor) (r : Rollout)
  : Rollout :=
  {| cur_idx := cur_idx r + 1;
     queue := queue r ++ [copyToSim strm t (bufs (cur_idx r))] |}.

(** [copyFromSim(bufs[cur_idx++], t)] *)
Definition copy_out (strm : Z) (bufs : Z -> Ptr) (t : Tensor) (r : Rollout)
  : Rollout :=
  {| cur_idx := cur_idx r + 1;
     queue := queue r ++ [copyFromSim strm (bufs (cur_idx r)) t] |}.

(** [buffers] is the caller's [void **]: a pointer has no length, so it is
    a map from element index to the pointer stored there. *)
Definition gpuRollout (strm : Z) (buffers : Z -> Ptr)
  (train_iface : TrainInterface) : list StreamOp :=
  let src_obs := observations train_iface in
  let src_stats := stats train_iface in
  let policy_assignments := policyAssignments train_iface in
  let input_buffers := buffers in
  let out_off := Z.of_nat (length src_obs) + Z.of_nat (length src_stats) + 4 in
  let out_off := match policy_assignments with
                 | Some _ => out_off + 1
                 | None => out_off
                 end in
  let output_buffers := fun i => buffers (out_off + i) in
  let r := {| cur_idx := 0; queue := [] |} in
  let r := copy_in strm input_buffers (actions train_iface) r in
  let r := copy_in strm input_buffers (resets train_iface) r in
  let r := enqueue (RunAsync strm) r in
  let r := copy_out strm output_buffers (rewards train_iface) r in
  let r := copy_out strm output_buffers (dones train_iface) r in
  let r := match policy_assignments with
           | Some t => copy_out strm output_buffers t r
           | None => r
           end in
  let r := fold_left (fun r t => copy_out strm output_buffers (hdl t) r)
                     src_obs r in
  let r := fold_left (fun r t => copy_out strm output_buffers (hdl t) r)
                     src_stats r in
  queue r.

(** Manager::gpuRolloutStep.  The CPU variant's body is [assert(false)]:
    it stops the process, unless [NDEBUG] compiles the assertion away and
    the call returns having enqueued nothing. *)
Definition gpuRolloutStep (m : Manager) (strm : Z) (rollout_buffers : Z -> Ptr)
  : Outcome (list StreamOp) :=
  let iface := trainInterface m in
  match kind (impl_ m) with
  | CUDAImpl => Ok (gpuRollout strm rollout_buffers iface)
  | CPUImpl => if NDEBUG then Ok [] else Fatal "assert(false)"
  end.

End Model.

(** ** What is assumed of the engine, and the invariant of a built Manager *)

Section Contracts.
Context `{P : Platform}.



(** The sizes of the exported control regions.  The simulation code that
    registers them is not under src, so the sizes enter as an assumption on
    the executor: one slot per world, and one per world and agent for
    actions. *)
Definition sized_for (n : Z) (mem : Exports) : Prop :=
  Z.of_nat (length (resetBuf mem)) = n /\
  Z.of_nat (length (actionBuf mem)) = n * numAgents /\
  Z.of_nat (length (saveBuf mem)) = n /\
  Z.of_nat (length (loadBuf mem)) = n.

Definition executor_contract : Prop :=
  forall k n ne sim_cfg inits,
    0 <= n -> sized_for n (fst (executorNew k n ne sim_cfg inits)).

(** A pass of the task graph leaves the exported regions their size. *)
Definition taskgraph_contract : Prop :=
  forall k mem st n,
    sized_for n mem -> sized_for n (fst (taskgraph k (mem, st))).

(** A Manager as the constructor leaves it: the CUDA backend only in a CUDA
    build, and control regions sized for its world count. *)
Definition Manager_wf (m : Manager) : Prop :=
  (execMode (cfg (impl_ m)) = ExecMode_CUDA -> MADRONA_CUDA_SUPPORT = true) /\
  sized_for (numWorlds (cfg (impl_ m))) (exported (impl_ m)).

(** The sequence of simulation-side tensors a rollout touches after the
    step launch. *)
Definition output_tensors (iface : TrainInterface) : list Tensor :=
  [rewards iface; dones iface]
  ++ match policyAssignments iface with Some t => [t] | None => [] end
  ++ map hdl (observations iface)
  ++ map hdl (stats iface).

Definition all_tensors (iface : TrainInterface) : list Tensor :=
  [actions iface; resets iface] ++ output_tensors iface.

End Contracts.

(** The offset of [output_buffers] within the caller's array. *)
Definition output_offset (iface : TrainInterface) : Z :=
  Z.of_nat (length (observations iface)) + Z.of_nat (length (stats iface)) + 4
  + match policyAssignments iface with Some _ => 1 | None => 0 end.

Definition op_bytes (op : StreamOp) : option Z :=
  match op with
  | MemcpyAsyncD2D _ _ num_bytes _ => Some num_bytes
  | RunAsync _ => None
  end.

(** The byte size of a tensor in unbounded arithmetic, reduced to 64 bits. *)
Definition tensor_bytes (t : Tensor) : Z :=
  (fold_right Z.mul 1 (dims t) * numBytesPerItem t) mod two64.

Definition is_copy (op : StreamOp) : bool :=
  match op with MemcpyAsyncD2D _ _ _ _ => true | RunAsync _ => false end.


(** The sizing rule as section 4.4 words it: every copy is sized by a
    tensor that sits at the copy's destination. *)
Definition sized_by_destination (strm : Z) (buffers : Z -> Ptr)
  (iface : TrainInterface) : Prop :=
  forall dst src num_bytes s,
    In (MemcpyAsyncD2D dst src num_bytes s) (gpuRollout strm buffers iface) ->
    exists t, In t (all_tensors iface) /\ devicePtr t = dst /\
              num_bytes = tensor_bytes t.

(** ** A small concrete platform, for running the model *)

Module Fixture.

Definition mesh_of (path : string) : list nat := [String.length path].

Definition metadata_of (o : SourceCollisionObject) : RigidBodyMetadata :=
  {| mass := {| md_invMass := invMass o;
                invInertiaTensor := {| Vector3.x := f32_1;
                                       Vector3.y := f32_0_5;
                                       Vector3.z := f32_0_75 |} |};
     md_friction := friction o |}.

Definition fresh_exports (agents n : Z) : Exports :=
  {| resetBuf := replicate (Z.to_nat n) {| reset := 0 |};
     actionBuf := replicate (Z.to_nat (n * agents))
                    {| moveAmount := 0; moveAngle := 0; rotate := 0; interact := 0 |};
     saveBuf := replicate (Z.to_nat n) {| save := 0 |};
     loadBuf := replicate (Z.to_nat n) {| ckpt_reset := 0 |} |}.

(** One pass consumes the reset and checkpoint flags. *)
Definition clear_flags (mem : Exports) : Exports :=
  {| resetBuf := map (fun _ => {| reset := 0 |}) (resetBuf mem);
     actionBuf := actionBuf mem;
     saveBuf := map (fun _ => {| save := 0 |}) (saveBuf mem);
     loadBuf := map (fun _ => {| ckpt_reset := 0 |}) (loadBuf mem) |}.

Definition platform (cuda : bool) : Platform :=
  {| MADRONA_CUDA_SUPPORT := cuda;
     NDEBUG := false;
     DATA_DIR := "data";
     numAgents := 2;
     maxObservationsPerAgent := 9;
     numLidarSamples := 30;
     sizeof_Checkpoint := 512;
     sizeof_SelfObservation := 32;
     SourceMesh := nat;
     importFromDisk := fun paths => inr (map mesh_of paths);
     processRigidBodyAssets := fun hulls objs _ =>
       Some {| metadatas := map metadata_of objs;
               numObjs := Z.of_nat (length objs) |};
     cudaSetup := fun _ => true;
     SimState := nat;
     executorNew := fun _ n _ _ _ => (fresh_exports 2 n, 0%nat);
     getExported := fun _ slot => 4096 * (slot + 1);
     taskgraph := fun _ '(mem, ticks) => (clear_flags mem, S ticks) |}.

(** A build without CUDA support. *)
Definition cpu : Platform := platform false.

Definition cpu_config : Config :=
  {| execMode := ExecMode_CPU; gpuID := 0; numWorlds := 4;
     cfg_autoReset := true; cfg_simFlags := 0; cfg_rewardMode := 0;
     cfg_buttonWidth := f32_1; cfg_doorWidth := f32_1 |}.

Definition cpu_impl : Impl (P := cpu) :=
  @Build_Impl cpu CPUImpl cpu_config
    (PhysicsLoader_new ExecMode_CPU 10) {| curEpisode := 0 |}
    (fresh_exports 2 4) 0%nat 0%nat.

Definition manager : Manager (P := cpu) := {| impl_ := cpu_impl |}.

(** What [Impl_init] and [buildSourceObjects] return on this platform. *)
Definition init_impl : Impl (P := cpu) :=
  match Impl_init (P := cpu) cpu_config None with
  | Ok impl => impl
  | _ => cpu_impl
  end.

Definition source_objects : HullSetup (P := cpu) :=
  match buildSourceObjects (P := cpu) with
  | Ok st => st
  | _ => {| src_convex_hulls := []; prim_arrays := []; src_objs := [] |}
  end.

Definition processed_assets : RigidBodyAssets :=
  {| metadatas := map metadata_of (src_objs source_objects);
     numObjs := Z.of_nat (length (src_objs source_objects)) |}.

Definition agent_metadata : RigidBodyMetadata :=
  metadata_of
    {| prims := [ {| prim_type := Hull; hullIDX := Some 3 |} ];
       invMass := f32_1;
       friction := {| muS := f32_0_5; muD := f32_0_5 |} |}.

Definition new_manager : Manager (P := cpu) :=
  match Manager_new (P := cpu) cpu_config None with
  | Ok m => m
  | _ => manager
  end.

Definition no_worlds_config : Config :=
  {| execMode := ExecMode_CPU; gpuID := 0; numWorlds := 0;
     cfg_autoReset := true; cfg_simFlags := 0; cfg_rewardMode := 0;
     cfg_buttonWidth := f32_1; cfg_doorWidth := f32_1 |}.

(** A CUDA build, and a Manager on its CUDA backend. *)
Definition cuda : Platform := platform true.

Definition cuda_config : Config :=
  {| execMode := ExecMode_CUDA; gpuID := 1; numWorlds := 4;
     cfg_autoReset := true; cfg_simFlags := 0; cfg_rewardMode := 0;
     cfg_buttonWidth := f32_1; cfg_doorWidth := f32_1 |}.

Definition cuda_manager : Manager (P := cuda) :=
  {| impl_ := @Build_Impl cuda CUDAImpl cuda_config
                (PhysicsLoader_new ExecMode_CUDA 10) {| curEpisode := 0 |}
                (fresh_exports 2 4) 0%nat 0%nat |}.

(** What [loadPhysicsObjects] returns on the CPU platform. *)
Definition loader : PhysicsLoader :=
  match loadPhysicsObjects (P := cpu) (PhysicsLoader_new ExecMode_CPU 10) with
  | Ok l => l
  | _ => PhysicsLoader_new ExecMode_CPU 10
  end.

(** A world count above [INT32_MAX]: 2^31 worlds of two agents. *)
Definition wide_config : Config :=
  {| execMode := ExecMode_CPU; gpuID := 0; numWorlds := 2147483648;
     cfg_autoReset := true; cfg_simFlags := 0; cfg_rewardMode := 0;
     cfg_buttonWidth := f32_1; cfg_doorWidth := f32_1 |}.

Definition wide_impl : Impl (P := cpu) :=
  @Build_Impl cpu CPUImpl wide_config loader {| curEpisode := 0 |}
    (fresh_exports 2 (numWorlds wide_config)) 0%nat 0%nat.

Definition wide_manager : Manager (P := cpu) := {| impl_ := wide_impl |}.

Definition tensor (p : Ptr) (ty : ElementType) (ds : list Z) : Tensor :=
  {| devicePtr := p; type := ty; dims := ds; gpu_id := Some 0 |}.

Definition iface : TrainInterface :=
  {| observations := [ {| name := "self"; hdl := tensor 500 Float32 [8; 5] |};
                       {| name := "lidar"; hdl := tensor 600 Float32 [8; 30; 2] |} ];
     actions := tensor 100 Int32 [8; 4];
     rewards := tensor 200 Float32 [8; 1];
     dones := tensor 300 Int32 [8; 1];
     resets := tensor 400 Int32 [4; 1];
     policyAssignments := None;
     stats := [] |}.

(** A descriptor with a policy-assignment tensor and one statistic. *)
Definition iface_full : TrainInterface :=
  {| observations := [ {| name := "self"; hdl := tensor 500 Float32 [8; 5] |} ];
     actions := tensor 100 Int32 [8; 4];
     rewards := tensor 200 Float32 [8; 1];
     dones := tensor 300 Int32 [8; 1];
     resets := tensor 400 Int32 [4; 1];
     policyAssignments := Some (tensor 700 Int32 [8; 1]);
     stats := [ {| name := "episodes"; hdl := tensor 800 Int64 [4] |} ] |}.

(** The caller's array: element [i] holds address [10000 + 64 i]. *)
Definition buffers (i : Z) : Ptr := 10000 + 64 * i.

End Fixture.

(** ** Vocabulary for statements about call sequences, export slots and
       hull primitives *)

Section Vocabulary.
Context `{P : Platform}.


(** The number of [step()] calls in a sequence. *)
Definition count_steps (cs : list Call) : nat :=
  length (List.filter is_step cs).

(** The export slot each accessor passes to [exportTensor]. *)
Definition accessor_slot (a : Accessor) : ExportID :=
  match a with
  | AccCheckpointReset => CheckpointReset_
  | AccCheckpoint => Checkpoint
  | AccReset => Reset
  | AccAction => Action_
  | AccReward => Reward
  | AccDone => Done
  | AccSelfObservation => SelfObservation
  | AccPartnerObservations => PartnerObservations
  | AccRoomEntityObservations => RoomEntityObservations
  | AccDoorObservation => DoorObservation
  | AccLidar => Lidar
  | AccStepsRemaining => StepsRemaining
  | AccAgentID => AgentID
  end.

(** The mesh a primitive names, looked up in an array of hulls. *)
Definition hull_of (hulls : list SourceMesh) (p : SourceCollisionPrimitive)
  : option SourceMesh :=
  match hullIDX p with
  | Some k => hulls !! Z.to_nat k
  | None => None
  end.

(** The hull primitives of [ms] when [off] hulls were pushed before. *)
Definition hull_prims (off : nat) (ms : list SourceMesh)
  : list SourceCollisionPrimitive :=
  imap (fun k _ => {| prim_type := Hull;
                      hullIDX := Some (Z.of_nat (off + k) mod 4294967296) |})
       ms.

End Vocabulary.

(** The caller-array elements one rollout reads: 0 and 1 for the inputs,
    and [n + 2, ..., 2n - 1] for the outputs, [n] being [output_offset]. *)
Definition rollout_slot (iface : TrainInterface) (i : Z) : Prop :=
  i = 0 \/ i = 1 \/
  output_offset iface + 2 <= i < 2 * output_offset iface.

Definition op_stream (op : StreamOp) : Z :=
  match op with
  | MemcpyAsyncD2D _ _ _ strm => strm
  | RunAsync strm => strm
  end.

(** * Properties *)

(** ** Stores *)

Lemma store_ok {A : Type} (buf : list A) (idx : Z) (v : A) :
  0 <= idx < Z.of_nat (length buf) ->
  store buf idx v = Ok (<[Z.to_nat idx := v]> buf).
Proof.
  intros [Hlo Hhi]. unfold store.
  apply Z.leb_le in Hlo. apply Z.ltb_lt in Hhi.
  now rewrite Hlo, Hhi.
Qed.

Lemma store_inv {A : Type} (buf b : list A) (idx : Z) (v : A) :
  store buf idx v = Ok b ->
  0 <= idx < Z.of_nat (length buf) /\ b = <[Z.to_nat idx := v]> buf.
Proof.
  unfold store.
  destruct (0 <=? idx) eqn:Hlo; destruct (idx <? Z.of_nat (length buf)) eqn:Hhi;
    simpl; intros H; try discriminate.
  apply Z.leb_le in Hlo. apply Z.ltb_lt in Hhi.
  injection H as <-. auto.
Qed.

Lemma store_length {A : Type} (buf b : list A) (idx : Z) (v : A) :
  store buf idx v = Ok b -> length b = length buf.
Proof.
  intros H. apply store_inv in H as [_ ->]. apply length_insert.
Qed.

Lemma Ok_inj {A : Type} (a b : A) : Ok a = Ok b -> a = b.
Proof. congruence. Qed.

Lemma bind_Ok_inv {A B : Type} (m : Outcome A) (k : A -> Outcome B) (b : B) :
  bind m k = Ok b -> exists a, m = Ok a /\ k a = Ok b.
Proof. destruct m; simpl; intros H; try discriminate. eauto. Qed.

Section Properties.
Context `{P : Platform}.

(** ** Control writes *)

Lemma control_write_ok (m : Manager) (w : Exports -> Outcome Exports)
  (mem : Exports) :
  Manager_wf m ->
  w (exported (impl_ m)) = Ok mem ->
  control_write m w = Ok {| impl_ := with_exported (impl_ m) mem |}.
Proof.
  intros [Hcuda _] Hw. unfold control_write.
  destruct (execMode (cfg (impl_ m)) =? ExecMode_CUDA) eqn:E.
  - apply Z.eqb_eq in E. rewrite (Hcuda E), Hw. reflexivity.
  - rewrite Hw. reflexivity.
Qed.

Lemma control_write_inv (m m' : Manager) (w : Exports -> Outcome Exports) :
  control_write m w = Ok m' ->
  m' = m \/
  exists mem, w (exported (impl_ m)) = Ok mem /\
              m' = {| impl_ := with_exported (impl_ m) mem |}.
Proof.
  unfold control_write.
  destruct (execMode (cfg (impl_ m)) =? ExecMode_CUDA);
    [destruct MADRONA_CUDA_SUPPORT|].
  - intros H. apply bind_Ok_inv in H as (mem & Hw & H).
    injection H as <-. right. eauto.
  - intros H. injection H as <-. now left.
  - intros H. apply bind_Ok_inv in H as (mem & Hw & H).
    injection H as <-. right. eauto.
Qed.

Lemma Impl_run_cfg (impl : Impl) : cfg (Impl_run impl) = cfg impl.
Proof.
  unfold Impl_run.
  destruct (taskgraph (kind impl) (exported impl, simState impl)).
  reflexivity.
Qed.

Lemma call_cfg (m m' : Manager) (c : Call) :
  call m c = Ok m' -> cfg (impl_ m') = cfg (impl_ m).
Proof.
  destruct c; simpl.
  - intros H. injection H as <-. apply Impl_run_cfg.
  - intros H. apply control_write_inv in H as [->|(mem & _ & ->)]; reflexivity.
  - intros H. apply control_write_inv in H as [->|(mem & _ & ->)]; reflexivity.
  - intros H. apply control_write_inv in H as [->|(mem & _ & ->)]; reflexivity.
  - intros H. apply control_write_inv in H as [->|(mem & _ & ->)]; reflexivity.
Qed.

Lemma calls_cfg (cs : list Call) (m m' : Manager) :
  calls cs m = Ok m' -> cfg (impl_ m') = cfg (impl_ m).
Proof.
  revert m. induction cs as [|c cs IH]; intros m; unfold calls; simpl.
  - intros H. now injection H as <-.
  - intros H. apply bind_Ok_inv in H as (m1 & Hc & Hcs).
    rewrite (IH m1 Hcs). eapply call_cfg; eauto.
Qed.

Lemma to_uint32_small (x : Z) : 0 <= x < 4294967296 -> to_uint32 x = x.
Proof. intros H. unfold to_uint32. now apply Z.mod_small. Qed.

(** C4 (amended): when [numWorlds * numAgents] is below 2^32, the action,
    reward and partner-observation accessors return the shapes
    [numWorlds * numAgents, 4], [numWorlds * numAgents, 1] and
    [numWorlds * numAgents, numAgents - 1, 3], and still do after any
    sequence of steps and control writes on the Manager. *)
Theorem tensor_shapes_fixed (m : Manager) :
  0 <= numWorlds (cfg (impl_ m)) * numAgents < 4294967296 ->
  let n := numWorlds (cfg (impl_ m)) in
  dims (actionTensor m) = [n * numAgents; 4] /\
  dims (rewardTensor m) = [n * numAgents; 1] /\
  dims (partnerObservationsTensor m) = [n * numAgents; numAgents - 1; 3] /\
  forall (cs : list Call) (m' : Manager),
    calls cs m = Ok m' ->
    dims (actionTensor m') = [n * numAgents; 4] /\
    dims (rewardTensor m') = [n * numAgents; 1] /\
    dims (partnerObservationsTensor m') = [n * numAgents; numAgents - 1; 3].
Proof.
  intros Hfit. cbv zeta.
  assert (Hdims : forall m0 : Manager,
             cfg (impl_ m0) = cfg (impl_ m) ->
             dims (actionTensor m0) =
               [numWorlds (cfg (impl_ m)) * numAgents; 4] /\
             dims (rewardTensor m0) =
               [numWorlds (cfg (impl_ m)) * numAgents; 1] /\
             dims (partnerObservationsTensor m0) =
               [numWorlds (cfg (impl_ m)) * numAgents; numAgents - 1; 3]).
  { intros m0 Hcfg.
    unfold actionTensor, rewardTensor, partnerObservationsTensor, exportTensor.
    cbn [dims]. rewrite Hcfg, (to_uint32_small _ Hfit). auto. }
  destruct (Hdims m eq_refl) as (Ha & Hr & Hp).
  split; [exact Ha|]. split; [exact Hr|]. split; [exact Hp|].
  intros cs m' Hrun. apply Hdims. now apply (calls_cfg cs).
Qed.



(** ** Checkpoint flags *)

Lemma call_keeps_load_flag (m m' : Manager) (c : Call) (k : nat) :
  is_step c = false ->
  call m c = Ok m' ->
  loadBuf (exported (impl_ m)) !! k = Some {| ckpt_reset := 1 |} ->
  loadBuf (exported (impl_ m')) !! k = Some {| ckpt_reset := 1 |}.
Proof.
  intros Hstep Hc Hk. destruct c; simpl in *; try discriminate;
    apply control_write_inv in Hc as [->|(mem & Hw & ->)]; auto;
    apply bind_Ok_inv in Hw as (b & Hst & Hmem);
    injection Hmem as <-; simpl; auto.
  apply store_inv in Hst as [_ ->].
  rewrite list_lookup_insert. case_decide; auto.
Qed.

Lemma calls_keep_load_flag (cs : list Call) (m m' : Manager) (k : nat) :
  forallb (fun c => negb (is_step c)) cs = true ->
  calls cs m = Ok m' ->
  loadBuf (exported (impl_ m)) !! k = Some {| ckpt_reset := 1 |} ->
  loadBuf (exported (impl_ m')) !! k = Some {| ckpt_reset := 1 |}.
Proof.
  revert m. induction cs as [|c cs IH]; intros m; unfold calls; simpl.
  - intros _ H. now injection H as <-.
  - intros Hall H Hk. apply andb_prop in Hall as [Hc Hcs].
    apply negb_true_iff in Hc.
    apply bind_Ok_inv in H as (m1 & H1 & H2).
    apply (IH m1 Hcs H2). eapply call_keeps_load_flag; eauto.
Qed.

(** C10: [triggerLoadCheckpoint(w)] stores 1 in world [w]'s load flag, and
    no sequence of public calls without a step changes it afterwards;
    [setSaveCheckpoint(w, value)] stores the caller's value as given, so
    0 disarms a pending save. *)
Theorem load_checkpoint_stays_armed (m : Manager) (w : Z) :
  Manager_wf m ->
  0 <= w < numWorlds (cfg (impl_ m)) ->
  (exists m1,
     triggerLoadCheckpoint m w = Ok m1 /\
     loadBuf (exported (impl_ m1)) !! Z.to_nat w = Some {| ckpt_reset := 1 |} /\
     forall (cs : list Call) (m2 : Manager),
       forallb (fun c => negb (is_step c)) cs = true ->
       calls cs m1 = Ok m2 ->
       loadBuf (exported (impl_ m2)) !! Z.to_nat w = Some {| ckpt_reset := 1 |}) /\
  (forall value : Z,
     exists m3,
       setSaveCheckpoint m w value = Ok m3 /\
       saveBuf (exported (impl_ m3)) !! Z.to_nat w = Some {| save := value |}).
Proof.
  intros Hwf Hw.
  pose proof Hwf as [_ (_ & _ & Hsave & Hload)].
  split.
  - eexists. split; [|split].
    + unfold triggerLoadCheckpoint. apply control_write_ok; [exact Hwf|].
      rewrite store_ok by lia. reflexivity.
    + simpl. apply list_lookup_insert_eq. lia.
    + intros cs m2 Hcs Hrun.
      apply (calls_keep_load_flag cs _ m2 _ Hcs Hrun).
      simpl. apply list_lookup_insert_eq. lia.
  - intros value. eexists. split.
    + unfold setSaveCheckpoint. apply control_write_ok; [exact Hwf|].
      rewrite store_ok by lia. reflexivity.
    + simpl. apply list_lookup_insert_eq. lia.
Qed.

(** ** Construction *)

Lemma to_int32_small (n : Z) : 0 <= n <= INT32_MAX -> to_int32 n = n.
Proof.
  unfold to_int32, INT32_MAX. intros H.
  rewrite Z.mod_small by lia. lia.
Qed.

Lemma init_backend_wf (k : ImplKind) (mgr_cfg : Config) (viz : option Z)
  (sim_cfg : Sim_Config) (impl : Impl) :
  executor_contract ->
  0 <= numWorlds mgr_cfg ->
  init_backend k mgr_cfg viz sim_cfg = Ok impl ->
  kind impl = k /\ cfg impl = mgr_cfg /\ runCount impl = 0%nat /\
  sized_for (numWorlds mgr_cfg) (exported impl).
Proof.
  intros Hexec Hn. unfold init_backend.
  intros H. apply bind_Ok_inv in H as (loader & _ & H).
  match type of H with
  | context [executorNew ?a ?b ?c ?d ?e] =>
      pose proof (Hexec a b c d e Hn) as Hsz;
      destruct (executorNew a b c d e) as [mem st]
  end.
  injection H as <-. simpl in *. auto.
Qed.

Lemma Impl_init_wf (mgr_cfg : Config) (viz : option Z) (impl : Impl) :
  executor_contract ->
  0 <= numWorlds mgr_cfg ->
  Impl_init mgr_cfg viz = Ok impl ->
  Manager_wf {| impl_ := impl |} /\ cfg impl = mgr_cfg /\ runCount impl = 0%nat.
Proof.
  intros Hexec Hn. unfold Impl_init, MADRONA_UNREACHABLE.
  destruct (execMode mgr_cfg =? ExecMode_CUDA) eqn:Ecuda.
  - destruct MADRONA_CUDA_SUPPORT eqn:Esup; [|discriminate].
    destruct (cudaSetup (gpuID mgr_cfg)); [|discriminate].
    intros H. apply init_backend_wf in H as (_ & Hc & Hr & Hs); auto.
    unfold Manager_wf. simpl. rewrite Hc. repeat split; auto; apply Hs.
  - destruct (execMode mgr_cfg =? ExecMode_CPU); [|discriminate].
    intros H. apply init_backend_wf in H as (_ & Hc & Hr & Hs); auto.
    unfold Manager_wf. simpl. rewrite Hc. repeat split; auto; try apply Hs.
    intros E. apply Z.eqb_neq in Ecuda. contradiction.
Qed.

Lemma triggerReset_all (ws : list Z) (m : Manager) :
  Manager_wf m ->
  Forall (fun w => 0 <= w < numWorlds (cfg (impl_ m))) ws ->
  exists m',
    foldM triggerReset ws m = Ok m' /\
    Manager_wf m' /\
    cfg (impl_ m') = cfg (impl_ m) /\
    runCount (impl_ m') = runCount (impl_ m) /\
    (forall w, In w ws ->
       resetBuf (exported (impl_ m')) !! Z.to_nat w = Some {| reset := 1 |}) /\
    (forall k : nat,
       resetBuf (exported (impl_ m)) !! k = Some {| reset := 1 |} ->
       resetBuf (exported (impl_ m')) !! k = Some {| reset := 1 |}).
Proof.
  revert m. induction ws as [|w ws IH]; intros m Hwf Hall.
  - exists m. simpl.
    split; [reflexivity|]. split; [exact Hwf|].
    split; [reflexivity|]. split; [reflexivity|].
    split; [intros w []|auto].
  - apply Forall_cons in Hall as [Hw Hws].
    pose proof Hwf as [Hcuda (Hr & Ha & Hs & Hl)].
    set (m1 := {| impl_ := with_exported (impl_ m)
                    (set_resetBuf (exported (impl_ m))
                       (<[Z.to_nat w := {| reset := 1 |}]>
                          (resetBuf (exported (impl_ m))))) |}).
    assert (H1 : triggerReset m w = Ok m1).
    { unfold triggerReset. apply control_write_ok; [exact Hwf|].
      rewrite store_ok by lia. reflexivity. }
    assert (Hwf1 : Manager_wf m1).
    { split; [exact Hcuda|]. unfold sized_for. simpl.
      rewrite length_insert. auto. }
    destruct (IH m1 Hwf1 Hws) as (m' & Hfold & Hwf' & Hcfg & Hrun & Hset & Hkeep).
    exists m'. simpl. rewrite H1. simpl.
    split; [exact Hfold|]. split; [exact Hwf'|].
    split; [exact Hcfg|]. split; [exact Hrun|]. split.
    + intros w' [<-|Hin]; [|auto].
      apply Hkeep. simpl. apply list_lookup_insert_eq. lia.
    + intros k Hk. apply Hkeep. simpl.
      rewrite list_lookup_insert. case_decide; auto.
Qed.

Lemma counter_values_range (n w : Z) : In w (counter_values n) <-> 0 <= w < n.
Proof.
  unfold counter_values. rewrite in_map_iff. split.
  - intros (k & <- & Hk). apply in_seq in Hk. lia.
  - intros H. exists (Z.to_nat w). split; [lia|]. apply in_seq. lia.
Qed.

Lemma Impl_run_pass (impl : Impl) :
  (exported (Impl_run impl), simState (Impl_run impl)) =
  taskgraph (kind impl) (exported impl, simState impl).
Proof.
  unfold Impl_run.
  destruct (taskgraph (kind impl) (exported impl, simState impl)).
  reflexivity.
Qed.

Lemma triggerReset_keeps_rest (m m' : Manager) (w : Z) :
  triggerReset m w = Ok m' ->
  kind (impl_ m') = kind (impl_ m) /\
  simState (impl_ m') = simState (impl_ m) /\
  actionBuf (exported (impl_ m')) = actionBuf (exported (impl_ m)) /\
  saveBuf (exported (impl_ m')) = saveBuf (exported (impl_ m)) /\
  loadBuf (exported (impl_ m')) = loadBuf (exported (impl_ m)).
Proof.
  intros H. apply control_write_inv in H as [->|(mem & Hw & ->)].
  - repeat split.
  - apply bind_Ok_inv in Hw as (b & _ & Hmem). injection Hmem as <-.
    repeat split.
Qed.

Lemma triggerReset_all_keeps_rest (ws : list Z) (m m' : Manager) :
  foldM triggerReset ws m = Ok m' ->
  kind (impl_ m') = kind (impl_ m) /\
  simState (impl_ m') = simState (impl_ m) /\
  actionBuf (exported (impl_ m')) = actionBuf (exported (impl_ m)) /\
  saveBuf (exported (impl_ m')) = saveBuf (exported (impl_ m)) /\
  loadBuf (exported (impl_ m')) = loadBuf (exported (impl_ m)).
Proof.
  revert m. induction ws as [|w ws IH]; intros m; cbn [foldM].
  - intros H. injection H as <-. repeat split.
  - intros H. apply bind_Ok_inv in H as (m1 & H1 & H2).
    apply triggerReset_keeps_rest in H1 as (Hk & Hs & Ha & Hv & Hl).
    apply IH in H2 as (Hk' & Hs' & Ha' & Hv' & Hl').
    rewrite Hk', Hs', Ha', Hv', Hl'. auto.
Qed.

(** C1 (amended): when the backend initialises and the world count N is at
    most [INT32_MAX], the constructor applies [triggerReset] to the worlds
    0, 1, ..., N-1 in turn and nothing else, and returns the state whose
    exported regions and simulation state are the result of one task-graph
    pass on the state so reached: before this pass every world's reset
    flag holds 1, and it is the only pass made. *)
Theorem Manager_new_resets_then_steps (cfg_ : Config) (viz : option Z)
  (impl : Impl) :
  executor_contract ->
  0 <= numWorlds cfg_ <= INT32_MAX ->
  Impl_init cfg_ viz = Ok impl ->
  exists pre,
    foldM triggerReset (counter_values (numWorlds cfg_)) {| impl_ := impl |}
      = Ok pre /\
    Manager_new cfg_ viz = Ok (step pre) /\
    (forall i, 0 <= i < numWorlds cfg_ ->
       resetBuf (exported (impl_ pre)) !! Z.to_nat i = Some {| reset := 1 |}) /\
    actionBuf (exported (impl_ pre)) = actionBuf (exported impl) /\
    saveBuf (exported (impl_ pre)) = saveBuf (exported impl) /\
    loadBuf (exported (impl_ pre)) = loadBuf (exported impl) /\
    simState (impl_ pre) = simState impl /\
    (exported (impl_ (step pre)), simState (impl_ (step pre))) =
      taskgraph (kind impl) (exported (impl_ pre), simState (impl_ pre)) /\
    runCount (impl_ pre) = 0%nat /\
    runCount (impl_ (step pre)) = 1%nat.
Proof.
  intros Hexec Hn Hinit.
  destruct (Impl_init_wf _ _ _ Hexec (proj1 Hn) Hinit) as (Hwf & Hcfg & Hrun0).
  destruct (triggerReset_all (counter_values (numWorlds cfg_))
              {| impl_ := impl |} Hwf)
    as (pre & Hfold & _ & _ & Hrun & Hset & _).
  { apply Forall_forall. intros w Hw. apply list_elem_of_In in Hw.
    simpl. rewrite Hcfg. now apply counter_values_range. }
  destruct (triggerReset_all_keeps_rest _ _ _ Hfold)
    as (Hk & Hs & Ha & Hv & Hl).
  cbn [impl_] in Hk, Hs, Ha, Hv, Hl.
  exists pre. split; [exact Hfold|].
  split; [|split; [|split; [|split; [|split; [|split; [|split; [|split]]]]]]].
  - unfold Manager_new. rewrite Hinit. simpl.
    rewrite to_int32_small by exact Hn. rewrite Hfold. reflexivity.
  - intros i Hi. apply Hset. now apply counter_values_range.
  - exact Ha.
  - exact Hv.
  - exact Hl.
  - exact Hs.
  - cbn [step impl_]. rewrite Impl_run_pass, Hk. reflexivity.
  - simpl in Hrun. congruence.
  - simpl. unfold Impl_run.
    destruct (taskgraph (kind (impl_ pre))
                (exported (impl_ pre), simState (impl_ pre))).
    simpl. simpl in Hrun. congruence.
Qed.

Lemma step_wf (m : Manager) :
  taskgraph_contract -> Manager_wf m -> Manager_wf (step m).
Proof.
  intros Htg [Hcuda Hsz]. unfold Manager_wf, step. cbn [impl_].
  rewrite Impl_run_cfg. split; [exact Hcuda|].
  unfold Impl_run.
  pose proof (Htg (kind (impl_ m)) (exported (impl_ m)) (simState (impl_ m))
                _ Hsz) as H.
  destruct (taskgraph (kind (impl_ m))
              (exported (impl_ m), simState (impl_ m))).
  exact H.
Qed.

(** Every Manager the constructor returns satisfies [Manager_wf]. *)
Lemma Manager_new_wf (cfg_ : Config) (viz : option Z) (m : Manager) :
  executor_contract -> taskgraph_contract ->
  0 <= numWorlds cfg_ <= INT32_MAX ->
  Manager_new cfg_ viz = Ok m ->
  Manager_wf m /\ cfg (impl_ m) = cfg_.
Proof.
  intros Hexec Htg Hn Hnew. unfold Manager_new in Hnew.
  apply bind_Ok_inv in Hnew as (impl & Hinit & Hnew).
  apply bind_Ok_inv in Hnew as (pre & Hfold & Hnew).
  injection Hnew as <-.
  destruct (Impl_init_wf _ _ _ Hexec (proj1 Hn) Hinit) as (Hwf & Hcfg & _).
  destruct (triggerReset_all (counter_values (to_int32 (numWorlds cfg_)))
              {| impl_ := impl |} Hwf)
    as (pre' & Hfold' & Hwf' & Hcfg' & _).
  { rewrite to_int32_small by exact Hn.
    apply Forall_forall. intros w Hw. apply list_elem_of_In in Hw.
    simpl. rewrite Hcfg. now apply counter_values_range. }
  rewrite Hfold in Hfold'. injection Hfold' as <-.
  split; [now apply step_wf|].
  cbn [step impl_]. rewrite Impl_run_cfg, Hcfg'. exact Hcfg.
Qed.

End Properties.

(** ** The rollout queue *)

Lemma copy_out_all (strm : Z) (bufs : Z -> Ptr) (ts : list Tensor) (r : Rollout) :
  fold_left (fun r t => copy_out strm bufs t r) ts r =
  {| cur_idx := cur_idx r + Z.of_nat (length ts);
     queue := queue r ++
              imap (fun k t => copyFromSim strm (bufs (cur_idx r + Z.of_nat k)) t) ts |}.
Proof.
  revert r. induction ts as [|t ts IH]; intros r.
  - simpl. rewrite Z.add_0_r, app_nil_r. now destruct r.
  - cbn [fold_left]. rewrite IH. cbn [copy_out cur_idx queue].
    rewrite imap_cons, <- app_assoc. f_equal.
    + cbn [length]. lia.
    + f_equal. cbn [app]. rewrite Z.add_0_r. f_equal.
      apply imap_ext. intros k x _. cbn. do 2 f_equal. lia.
Qed.

Lemma fold_left_hdl (strm : Z) (bufs : Z -> Ptr) (ts : list NamedTensor)
  (r : Rollout) :
  fold_left (fun r t => copy_out strm bufs (hdl t) r) ts r =
  fold_left (fun r t => copy_out strm bufs t r) (map hdl ts) r.
Proof.
  revert r. induction ts as [|t ts IH]; intros r; [reflexivity|].
  simpl. apply IH.
Qed.

Lemma gpuRollout_queue (strm : Z) (buffers : Z -> Ptr) (iface : TrainInterface) :
  gpuRollout strm buffers iface =
  [copyToSim strm (actions iface) (buffers 0);
   copyToSim strm (resets iface) (buffers 1);
   RunAsync strm]
  ++ imap (fun k t =>
             copyFromSim strm (buffers (output_offset iface + 2 + Z.of_nat k)) t)
          (output_tensors iface).
Proof.
  unfold gpuRollout, output_tensors, output_offset.
  rewrite !fold_left_hdl.
  destruct (policyAssignments iface) as [pa|].
  - rewrite <- fold_left_app.
    change (fold_left (fun r t => copy_out strm ?b t r) ?l
              (copy_out strm ?b pa ?r0))
      with (fold_left (fun r t => copy_out strm b t r) (pa :: l) r0).
    change (fold_left (fun r t => copy_out strm ?b t r) ?l
              (copy_out strm ?b ?t1 (copy_out strm ?b ?t0 ?r0)))
      with (fold_left (fun r t => copy_out strm b t r) (t0 :: t1 :: l) r0).
    rewrite copy_out_all. cbn [queue cur_idx copy_in enqueue app].
    f_equal. f_equal. f_equal.
    apply imap_ext. intros k x _. cbn. do 2 f_equal. lia.
  - rewrite <- fold_left_app.
    change (fold_left (fun r t => copy_out strm ?b t r) ?l
              (copy_out strm ?b ?t1 (copy_out strm ?b ?t0 ?r0)))
      with (fold_left (fun r t => copy_out strm b t r) (t0 :: t1 :: l) r0).
    rewrite copy_out_all. cbn [queue cur_idx copy_in enqueue app].
    f_equal. f_equal. f_equal.
    apply imap_ext. intros k x _. cbn. do 2 f_equal. lia.
Qed.

Lemma num_items_mod (ds : list Z) (a : Z) :
  fold_left (fun num_items d => (num_items * to_uint64 d) mod two64) ds a
    mod two64
  = (a * fold_right Z.mul 1 ds) mod two64.
Proof.
  revert a. induction ds as [|d ds IH]; intros a; cbn [fold_left fold_right].
  - now rewrite Z.mul_1_r.
  - rewrite IH. unfold to_uint64.
    rewrite Z.mul_mod_idemp_l by (unfold two64; lia).
    replace (a * (d mod two64) * fold_right Z.mul 1 ds)
      with ((d mod two64) * (a * fold_right Z.mul 1 ds)) by ring.
    rewrite Z.mul_mod_idemp_l by (unfold two64; lia).
    f_equal. ring.
Qed.

Lemma numTensorBytes_spec (t : Tensor) : numTensorBytes t = tensor_bytes t.
Proof.
  unfold numTensorBytes, tensor_bytes, to_uint64.
  rewrite Z.mul_mod_idemp_r by (unfold two64; lia).
  rewrite <- Z.mul_mod_idemp_l by (unfold two64; lia).
  rewrite num_items_mod, Z.mul_1_l.
  rewrite Z.mul_mod_idemp_l by (unfold two64; lia). reflexivity.
Qed.

(** C2: the queue built by one rollout call is, in this order: the copy
    from element 0 of the caller's array into the action tensor, the copy
    from element 1 into the reset tensor, the step launch, then one copy
    out of each of rewards, dones, the policy-assignment tensor when the
    descriptor has one, the observation tensors in declared order and the
    statistic tensors in declared order, into consecutive elements of the
    caller's array; and nothing else. *)
Theorem gpuRollout_order (strm : Z) (buffers : Z -> Ptr) (iface : TrainInterface) :
  gpuRollout strm buffers iface =
    [MemcpyAsyncD2D (devicePtr (actions iface)) (buffers 0)
       (tensor_bytes (actions iface)) strm;
     MemcpyAsyncD2D (devicePtr (resets iface)) (buffers 1)
       (tensor_bytes (resets iface)) strm;
     RunAsync strm]
    ++ imap (fun k t =>
               MemcpyAsyncD2D
                 (buffers (output_offset iface + 2 + Z.of_nat k))
                 (devicePtr t) (tensor_bytes t) strm)
            ([rewards iface; dones iface]
             ++ match policyAssignments iface with
                | Some t => [t]
                | None => []
                end
             ++ map hdl (observations iface)
             ++ map hdl (stats iface)).
Proof.
  rewrite gpuRollout_queue. unfold copyToSim, copyFromSim, output_tensors.
  rewrite !numTensorBytes_spec. f_equal.
  apply imap_ext. intros k t _. cbn. now rewrite numTensorBytes_spec.
Qed.

Lemma output_offset_ge (iface : TrainInterface) : 4 <= output_offset iface.
Proof. unfold output_offset. destruct (policyAssignments iface); lia. Qed.

(** C9: the running index is carried over from the input copies, so with
    [n = numObservations + numStats + 4 (+1 with a policy-assignment
    tensor)] the rewards copy goes to element [n + 2] of the caller's
    array, the dones copy to [n + 3] and the following copies to
    [n + 4, n + 5, ...]; the queue does not depend on what elements [n]
    and [n + 1] hold. *)
Theorem gpuRollout_output_slots (strm : Z) (buffers : Z -> Ptr)
  (iface : TrainInterface) :
  let n := Z.of_nat (length (observations iface))
           + Z.of_nat (length (stats iface)) + 4
           + match policyAssignments iface with Some _ => 1 | None => 0 end in
  gpuRollout strm buffers iface =
    [copyToSim strm (actions iface) (buffers 0);
     copyToSim strm (resets iface) (buffers 1);
     RunAsync strm;
     copyFromSim strm (buffers (n + 2)) (rewards iface);
     copyFromSim strm (buffers (n + 3)) (dones iface)]
    ++ imap (fun k t => copyFromSim strm (buffers (n + 4 + Z.of_nat k)) t)
            (match policyAssignments iface with Some t => [t] | None => [] end
             ++ map hdl (observations iface) ++ map hdl (stats iface)) /\
  forall buffers' : Z -> Ptr,
    (forall i, i <> n -> i <> n + 1 -> buffers' i = buffers i) ->
    gpuRollout strm buffers' iface = gpuRollout strm buffers iface.
Proof.
  cbv zeta. fold (output_offset iface). split.
  - rewrite gpuRollout_queue. unfold output_tensors.
    cbn [app]. rewrite !imap_cons. unfold compose.
    do 3 f_equal.
    f_equal; [do 2 f_equal; lia|].
    f_equal; [do 2 f_equal; lia|].
    apply imap_ext. intros k x _. cbn. do 2 f_equal. lia.
  - intros buffers' Hsame. pose proof (output_offset_ge iface) as Hge.
    rewrite !gpuRollout_queue.
    rewrite !(Hsame 0), !(Hsame 1) by lia. f_equal.
    apply imap_ext. intros k x _. cbn. rewrite Hsame by lia. reflexivity.
Qed.

(** ** Copy sizes *)

Lemma tensor_bytes_exact (t : Tensor) :
  0 <= fold_right Z.mul 1 (dims t) * numBytesPerItem t < two64 ->
  tensor_bytes t = fold_right Z.mul 1 (dims t) * numBytesPerItem t.
Proof. intros H. unfold tensor_bytes. now apply Z.mod_small. Qed.

Lemma zip_with_imap_src (strm : Z) (f : nat -> Ptr) (ts : list Tensor) :
  zip_with (fun t e => MemcpyAsyncD2D e (devicePtr t) (tensor_bytes t) strm)
           ts (imap (fun k _ => f k) ts) =
  imap (fun k t => copyFromSim strm (f k) t) ts.
Proof.
  revert f. induction ts as [|t ts IH]; intros f; [reflexivity|].
  rewrite !imap_cons. cbn [zip_with]. f_equal.
  - unfold copyFromSim. now rewrite numTensorBytes_spec.
  - apply (IH (f ∘ S)).
Qed.

Lemma op_bytes_imap (strm : Z) (f : nat -> Ptr) (ts : list Tensor) :
  map op_bytes (imap (fun k t => copyFromSim strm (f k) t) ts) =
  map (fun t => Some (numTensorBytes t)) ts.
Proof.
  revert f. induction ts as [|t ts IH]; intros f; [reflexivity|].
  rewrite imap_cons. cbn [map]. f_equal. apply (IH (f ∘ S)).
Qed.

(** C6 (amended): every copy is sized by the simulation-side tensor, the
    product of its declared dimensions times its element width in 64-bit
    unsigned arithmetic: the destination tensor for the two input copies,
    the source tensor for every output copy; the sizes are the same
    whatever the caller's array holds. *)
Theorem gpuRollout_copy_sizes (strm : Z) (buffers : Z -> Ptr)
  (iface : TrainInterface) :
  (exists (in_srcs out_dsts : list Ptr),
     length in_srcs = 2%nat /\
     length out_dsts = length (output_tensors iface) /\
     gpuRollout strm buffers iface =
       zip_with (fun t e => MemcpyAsyncD2D (devicePtr t) e (tensor_bytes t) strm)
                [actions iface; resets iface] in_srcs
       ++ [RunAsync strm]
       ++ zip_with (fun t e => MemcpyAsyncD2D e (devicePtr t) (tensor_bytes t) strm)
                   (output_tensors iface) out_dsts) /\
  forall buffers' : Z -> Ptr,
    map op_bytes (gpuRollout strm buffers' iface) =
    map op_bytes (gpuRollout strm buffers iface).
Proof.
  split.
  - exists [buffers 0; buffers 1],
           (imap (fun k _ => buffers (output_offset iface + 2 + Z.of_nat k))
                 (output_tensors iface)).
    split; [reflexivity|]. split; [apply length_imap|].
    rewrite gpuRollout_queue.
    rewrite (zip_with_imap_src strm
               (fun k => buffers (output_offset iface + 2 + Z.of_nat k))).
    cbn [zip_with app]. unfold copyToSim.
    now rewrite !numTensorBytes_spec.
  - intros buffers'. rewrite !gpuRollout_queue.
    rewrite !map_app. f_equal.
    now rewrite !op_bytes_imap.
Qed.

(** ** Asset set-up and backend construction *)



Section Construction.
Context `{P : Platform}.





Lemma constrainAgent_ok (assets : RigidBodyAssets) (md : RigidBodyMetadata) :
  metadatas assets !! Z.to_nat (SimObject_val Agent) = Some md ->
  constrainAgent assets =
    Ok (with_metadatas assets
          (<[Z.to_nat (SimObject_val Agent) :=
               set_invInertia_y f32_0 (set_invInertia_x f32_0 md)]>
             (metadatas assets))).
Proof.
  intros Hmd. pose proof (lookup_lt_Some _ _ _ Hmd) as Hlt.
  unfold constrainAgent, modify_at.
  change (0 <=? SimObject_val Agent) with true. cbn iota.
  rewrite Hmd. cbn [bind].
  rewrite list_lookup_insert_eq by exact Hlt.
  cbn [bind]. now rewrite list_insert_insert_eq.
Qed.

(** C8: once asset processing has returned a catalog, the catalog handed
    to the physics loader is that catalog with the agent entry replaced by
    one whose inverse inertia has x = 0 and y = 0; the z component, the
    agent's other fields and every other entry are as processing left
    them. *)
Theorem agent_inertia_constrained (loader : PhysicsLoader) (st : HullSetup)
  (assets : RigidBodyAssets) (md : RigidBodyMetadata) :
  buildSourceObjects = Ok st ->
  processRigidBodyAssets (src_convex_hulls st) (src_objs st) false = Some assets ->
  metadatas assets !! Z.to_nat (SimObject_val Agent) = Some md ->
  exists md' : RigidBodyMetadata,
    loadPhysicsObjects loader =
      Ok (loadRigidBodies loader
            (with_metadatas assets
               (<[Z.to_nat (SimObject_val Agent) := md']> (metadatas assets)))) /\
    Vector3.x (invInertiaTensor (mass md')) = f32_0 /\
    Vector3.y (invInertiaTensor (mass md')) = f32_0 /\
    Vector3.z (invInertiaTensor (mass md')) =
      Vector3.z (invInertiaTensor (mass md)) /\
    md_invMass (mass md') = md_invMass (mass md) /\
    md_friction md' = md_friction md /\
    forall j : nat,
      j <> Z.to_nat (SimObject_val Agent) ->
      <[Z.to_nat (SimObject_val Agent) := md']> (metadatas assets) !! j =
      metadatas assets !! j.
Proof.
  intros Hbuild Hproc Hmd.
  exists (set_invInertia_y f32_0 (set_invInertia_x f32_0 md)).
  split.
  - unfold loadPhysicsObjects. rewrite Hbuild. cbn [bind].
    rewrite Hproc, (constrainAgent_ok _ _ Hmd). reflexivity.
  - repeat split. intros j Hj. apply list_lookup_insert_ne. congruence.
Qed.







End Construction.

(** * Further properties of the control calls *)

Section ControlCalls.
Context `{P : Platform}.

Lemma with_exported_wf (m : Manager) (mem : Exports) :
  Manager_wf m ->
  sized_for (numWorlds (cfg (impl_ m))) mem ->
  Manager_wf {| impl_ := with_exported (impl_ m) mem |}.
Proof. intros [Hcuda _] Hsz. split; assumption. Qed.

Lemma flat_index_range (n w a : Z) :
  0 <= w < n -> 0 <= a < numAgents ->
  0 <= w * numAgents + a < n * numAgents.
Proof. intros Hw Ha. nia. Qed.


Lemma triggerReset_ok (m : Manager) (w : Z) :
  Manager_wf m ->
  0 <= w < numWorlds (cfg (impl_ m)) ->
  triggerReset m w =
    Ok {| impl_ := with_exported (impl_ m)
            (set_resetBuf (exported (impl_ m))
               (<[Z.to_nat w := {| reset := 1 |}]>
                  (resetBuf (exported (impl_ m))))) |}.
Proof.
  intros Hwf Hw. pose proof Hwf as [_ (Hr & _)].
  unfold triggerReset. apply control_write_ok; [exact Hwf|].
  rewrite store_ok by lia. reflexivity.
Qed.

Lemma setAction_ok (m : Manager) (w a ma mg r i : Z) :
  Manager_wf m ->
  0 <= w < numWorlds (cfg (impl_ m)) ->
  0 <= a < numAgents ->
  setAction m w a ma mg r i =
    Ok {| impl_ := with_exported (impl_ m)
            (set_actionBuf (exported (impl_ m))
               (<[Z.to_nat (w * numAgents + a) :=
                    {| moveAmount := ma; moveAngle := mg;
                       rotate := r; interact := i |}]>
                  (actionBuf (exported (impl_ m))))) |}.
Proof.
  intros Hwf Hw Ha. pose proof Hwf as [_ (_ & Hlen & _)].
  pose proof (flat_index_range _ _ _ Hw Ha).
  unfold setAction. apply control_write_ok; [exact Hwf|].
  rewrite store_ok by lia. reflexivity.
Qed.

Lemma setSaveCheckpoint_ok (m : Manager) (w value : Z) :
  Manager_wf m ->
  0 <= w < numWorlds (cfg (impl_ m)) ->
  setSaveCheckpoint m w value =
    Ok {| impl_ := with_exported (impl_ m)
            (set_saveBuf (exported (impl_ m))
               (<[Z.to_nat w := {| save := value |}]>
                  (saveBuf (exported (impl_ m))))) |}.
Proof.
  intros Hwf Hw. pose proof Hwf as [_ (_ & _ & Hs & _)].
  unfold setSaveCheckpoint. apply control_write_ok; [exact Hwf|].
  rewrite store_ok by lia. reflexivity.
Qed.

Lemma triggerLoadCheckpoint_ok (m : Manager) (w : Z) :
  Manager_wf m ->
  0 <= w < numWorlds (cfg (impl_ m)) ->
  triggerLoadCheckpoint m w =
    Ok {| impl_ := with_exported (impl_ m)
            (set_loadBuf (exported (impl_ m))
               (<[Z.to_nat w := {| ckpt_reset := 1 |}]>
                  (loadBuf (exported (impl_ m))))) |}.
Proof.
  intros Hwf Hw. pose proof Hwf as [_ (_ & _ & _ & Hl)].
  unfold triggerLoadCheckpoint. apply control_write_ok; [exact Hwf|].
  rewrite store_ok by lia. reflexivity.
Qed.

(** X1: for an in-range world, [triggerReset] stores 1 in that world's
    reset flag and changes no other reset flag and no other control
    region. *)
Theorem triggerReset_frame (m : Manager) (w : Z) :
  Manager_wf m ->
  0 <= w < numWorlds (cfg (impl_ m)) ->
  exists m',
    triggerReset m w = Ok m' /\
    resetBuf (exported (impl_ m')) !! Z.to_nat w = Some {| reset := 1 |} /\
    (forall j : nat,
       j <> Z.to_nat w ->
       resetBuf (exported (impl_ m')) !! j = resetBuf (exported (impl_ m)) !! j) /\
    actionBuf (exported (impl_ m')) = actionBuf (exported (impl_ m)) /\
    saveBuf (exported (impl_ m')) = saveBuf (exported (impl_ m)) /\
    loadBuf (exported (impl_ m')) = loadBuf (exported (impl_ m)).
Proof.
  intros Hwf Hw. pose proof Hwf as [_ (Hr & _)].
  eexists. split; [apply (triggerReset_ok m w Hwf Hw)|].
  cbn. repeat split.
  - apply list_lookup_insert_eq. lia.
  - intros j Hj. apply list_lookup_insert_ne. congruence.
Qed.

(** X2: for an in-range world, [setSaveCheckpoint] and
    [triggerLoadCheckpoint] each change only that world's slot of their own
    region: the other slots of it and the three other control regions are
    as before. *)
Theorem checkpoint_flags_frame (m : Manager) (w value : Z) :
  Manager_wf m ->
  0 <= w < numWorlds (cfg (impl_ m)) ->
  (exists m1,
     setSaveCheckpoint m w value = Ok m1 /\
     (forall j : nat,
        j <> Z.to_nat w ->
        saveBuf (exported (impl_ m1)) !! j = saveBuf (exported (impl_ m)) !! j) /\
     resetBuf (exported (impl_ m1)) = resetBuf (exported (impl_ m)) /\
     actionBuf (exported (impl_ m1)) = actionBuf (exported (impl_ m)) /\
     loadBuf (exported (impl_ m1)) = loadBuf (exported (impl_ m))) /\
  (exists m2,
     triggerLoadCheckpoint m w = Ok m2 /\
     (forall j : nat,
        j <> Z.to_nat w ->
        loadBuf (exported (impl_ m2)) !! j = loadBuf (exported (impl_ m)) !! j) /\
     resetBuf (exported (impl_ m2)) = resetBuf (exported (impl_ m)) /\
     actionBuf (exported (impl_ m2)) = actionBuf (exported (impl_ m)) /\
     saveBuf (exported (impl_ m2)) = saveBuf (exported (impl_ m))).
Proof.
  intros Hwf Hw. split.
  - eexists. split; [apply (setSaveCheckpoint_ok m w value Hwf Hw)|].
    cbn. repeat split.
    intros j Hj. apply list_lookup_insert_ne. congruence.
  - eexists. split; [apply (triggerLoadCheckpoint_ok m w Hwf Hw)|].
    cbn. repeat split.
    intros j Hj. apply list_lookup_insert_ne. congruence.
Qed.

Lemma call_keeps_reset_flag (m m' : Manager) (c : Call) (k : nat) :
  is_step c = false ->
  call m c = Ok m' ->
  resetBuf (exported (impl_ m)) !! k = Some {| reset := 1 |} ->
  resetBuf (exported (impl_ m')) !! k = Some {| reset := 1 |}.
Proof.
  intros Hstep Hc Hk. destruct c; simpl in *; try discriminate;
    apply control_write_inv in Hc as [->|(mem & Hw & ->)]; auto;
    apply bind_Ok_inv in Hw as (b & Hst & Hmem);
    injection Hmem as <-; simpl; auto.
  apply store_inv in Hst as [_ ->].
  rewrite list_lookup_insert. case_decide; auto.
Qed.

(** X3: once [triggerReset(w)] has stored 1, no sequence of
    [triggerReset], [setAction], [setSaveCheckpoint] and
    [triggerLoadCheckpoint] calls changes world [w]'s reset flag. *)
Theorem reset_stays_requested (m : Manager) (w : Z) :
  Manager_wf m ->
  0 <= w < numWorlds (cfg (impl_ m)) ->
  exists m1,
    triggerReset m w = Ok m1 /\
    forall (cs : list Call) (m2 : Manager),
      forallb (fun c => negb (is_step c)) cs = true ->
      calls cs m1 = Ok m2 ->
      resetBuf (exported (impl_ m2)) !! Z.to_nat w = Some {| reset := 1 |}.
Proof.
  intros Hwf Hw. pose proof Hwf as [_ (Hr & _)].
  eexists. split; [apply (triggerReset_ok m w Hwf Hw)|].
  intros cs. induction cs as [|c cs IH] using rev_ind; intros m2 Hall Hrun.
  - injection Hrun as <-. cbn. apply list_lookup_insert_eq. lia.
  - rewrite forallb_app in Hall. apply andb_prop in Hall as [Hcs Hc].
    cbn in Hc. rewrite andb_true_r in Hc. apply negb_true_iff in Hc.
    unfold calls in Hrun.
    assert (Hsplit : forall xs (s : Manager),
               foldM call (xs ++ [c]) s
               = bind (foldM call xs s) (fun s' => call s' c)).
    { induction xs as [|x xs IHx]; intros s; cbn.
      - now destruct (call s c).
      - destruct (call s x); cbn; auto. }
    rewrite Hsplit in Hrun. apply bind_Ok_inv in Hrun as (m1 & H1 & H2).
    eapply call_keeps_reset_flag; [exact Hc|exact H2|].
    apply IH; assumption.
Qed.



(** X6: a second write to the same slot replaces the first: two
    [setAction] calls for one (world, agent), or two [setSaveCheckpoint]
    calls for one world, leave the state the last call alone would
    leave. *)
Theorem last_write_wins (m : Manager) (w a : Z) (x1 x2 : Action) (v1 v2 : Z) :
  Manager_wf m ->
  0 <= w < numWorlds (cfg (impl_ m)) ->
  0 <= a < numAgents ->
  bind (setAction m w a (moveAmount x1) (moveAngle x1) (rotate x1) (interact x1))
       (fun m1 => setAction m1 w a (moveAmount x2) (moveAngle x2)
                    (rotate x2) (interact x2))
  = setAction m w a (moveAmount x2) (moveAngle x2) (rotate x2) (interact x2) /\
  bind (setSaveCheckpoint m w v1) (fun m1 => setSaveCheckpoint m1 w v2)
  = setSaveCheckpoint m w v2.
Proof.
  intros Hwf Hw Ha. pose proof Hwf as [_ (Hr & Hlen & Hs & Hl)]. split.
  - rewrite !(setAction_ok m w a _ _ _ _ Hwf Hw Ha). cbn [bind].
    rewrite setAction_ok; [| |exact Hw|exact Ha].
    2:{ apply with_exported_wf; [exact Hwf|].
        unfold sized_for. cbn. rewrite length_insert. auto. }
    cbn. now rewrite list_insert_insert_eq.
  - rewrite !(setSaveCheckpoint_ok m w _ Hwf Hw). cbn [bind].
    rewrite setSaveCheckpoint_ok; [| |exact Hw].
    2:{ apply with_exported_wf; [exact Hwf|].
        unfold sized_for. cbn. rewrite length_insert. auto. }
    cbn. now rewrite list_insert_insert_eq.
Qed.

End ControlCalls.

(** * Further properties of call sequences and of the constructor *)

Section Sequences.
Context `{P : Platform}.



Lemma call_static (m m' : Manager) (c : Call) :
  call m c = Ok m' ->
  kind (impl_ m') = kind (impl_ m) /\
  physicsLoader (impl_ m') = physicsLoader (impl_ m) /\
  episodeMgr (impl_ m') = episodeMgr (impl_ m) /\
  runCount (impl_ m') =
    ((if is_step c then 1 else 0) + runCount (impl_ m))%nat.
Proof.
  destruct c; cbn [call is_step].
  - intros H. injection H as <-. cbn [step impl_]. unfold Impl_run.
    destruct (taskgraph (kind (impl_ m))
                (exported (impl_ m), simState (impl_ m))).
    cbn. repeat split.
  - intros H. apply control_write_inv in H as [->|(mem & _ & ->)];
      cbn; repeat split.
  - intros H. apply control_write_inv in H as [->|(mem & _ & ->)];
      cbn; repeat split.
  - intros H. apply control_write_inv in H as [->|(mem & _ & ->)];
      cbn; repeat split.
  - intros H. apply control_write_inv in H as [->|(mem & _ & ->)];
      cbn; repeat split.
Qed.

Lemma calls_static (cs : list Call) (m m' : Manager) :
  calls cs m = Ok m' ->
  kind (impl_ m') = kind (impl_ m) /\
  physicsLoader (impl_ m') = physicsLoader (impl_ m) /\
  episodeMgr (impl_ m') = episodeMgr (impl_ m) /\
  runCount (impl_ m') = (count_steps cs + runCount (impl_ m))%nat.
Proof.
  revert m. induction cs as [|c cs IH]; intros m; unfold calls; cbn [foldM].
  - intros H. injection H as <-. auto.
  - intros H. apply bind_Ok_inv in H as (m1 & H1 & H2).
    apply call_static in H1 as (Hk & Hp & He & Hr).
    apply IH in H2 as (Hk' & Hp' & He' & Hr').
    rewrite Hk', Hp', He', Hr', Hk, Hp, He, Hr.
    repeat split. unfold count_steps. cbn [List.filter].
    destruct (is_step c); cbn [length]; lia.
Qed.

Lemma call_keeps_simState (m m' : Manager) (c : Call) :
  is_step c = false ->
  call m c = Ok m' ->
  simState (impl_ m') = simState (impl_ m).
Proof.
  intros Hs H. destruct c; cbn [call is_step] in *; try discriminate;
    apply control_write_inv in H as [->|(mem & _ & ->)]; reflexivity.
Qed.

Lemma calls_keep_simState (cs : list Call) (m m' : Manager) :
  count_steps cs = 0%nat ->
  calls cs m = Ok m' ->
  simState (impl_ m') = simState (impl_ m).
Proof.
  revert m. induction cs as [|c cs IH]; intros m; unfold calls, count_steps;
    cbn [foldM List.filter].
  - intros _ H. now injection H as <-.
  - destruct (is_step c) eqn:Ec; [discriminate|].
    intros Hn H. apply bind_Ok_inv in H as (m1 & H1 & H2).
    rewrite (IH m1 Hn H2). now apply (call_keeps_simState m m1 c).
Qed.

(** X8: across any sequence of [step], [triggerReset], [setAction],
    [setSaveCheckpoint] and [triggerLoadCheckpoint] calls the backend
    variant, the configuration and the physics loader stay the same; a
    sequence without [step] leaves the simulation state untouched; and a
    [step] after the sequence leaves exactly what one task-graph pass of
    that backend returns on the regions and simulation state reached. *)
Theorem only_step_runs_task_graph (cs : list Call) (m m' : Manager) :
  calls cs m = Ok m' ->
  kind (impl_ m') = kind (impl_ m) /\
  cfg (impl_ m') = cfg (impl_ m) /\
  physicsLoader (impl_ m') = physicsLoader (impl_ m) /\
  (count_steps cs = 0%nat -> simState (impl_ m') = simState (impl_ m)) /\
  (exported (impl_ (step m')), simState (impl_ (step m'))) =
    taskgraph (kind (impl_ m)) (exported (impl_ m'), simState (impl_ m')) /\
  kind (impl_ (step m')) = kind (impl_ m) /\
  cfg (impl_ (step m')) = cfg (impl_ m) /\
  physicsLoader (impl_ (step m')) = physicsLoader (impl_ m).
Proof.
  intros H. pose proof (calls_cfg cs m m' H) as Hcfg.
  pose proof (calls_static cs m m' H) as (Hk & Hp & _ & _).
  assert (Hstep : calls [CallStep] m' = Ok (step m')) by reflexivity.
  pose proof (calls_cfg _ _ _ Hstep) as Hcfg'.
  pose proof (calls_static _ _ _ Hstep) as (Hk' & Hp' & _ & _).
  split; [exact Hk|]. split; [exact Hcfg|]. split; [exact Hp|].
  split; [intros Hn; now apply (calls_keep_simState cs)|].
  split; [cbn [step impl_]; rewrite Impl_run_pass, Hk; reflexivity|].
  split; [congruence|]. split; congruence.
Qed.

Lemma foldM_triggerReset_calls (ws : list Z) (m : Manager) :
  foldM triggerReset ws m = calls (map CallTriggerReset ws) m.
Proof.
  revert m. induction ws as [|w ws IH]; intros m; [reflexivity|].
  unfold calls in *. cbn [foldM map call].
  destruct (triggerReset m w); cbn [bind]; auto.
Qed.

Lemma count_steps_resets (ws : list Z) :
  count_steps (map CallTriggerReset ws) = 0%nat.
Proof. induction ws as [|w ws IH]; [reflexivity|exact IH]. Qed.

Lemma init_backend_inv (k : ImplKind) (mgr_cfg : Config) (viz : option Z)
  (sim_cfg : Sim_Config) (impl : Impl) :
  init_backend k mgr_cfg viz sim_cfg = Ok impl ->
  kind impl = k /\ cfg impl = mgr_cfg /\ runCount impl = 0%nat /\
  episodeMgr impl = {| curEpisode := 0 |} /\
  exists assets, loadedBodies (physicsLoader impl) = [assets].
Proof.
  unfold init_backend. intros H.
  apply bind_Ok_inv in H as (loader & Hload & H).
  match type of H with
  | context [executorNew ?a ?b ?c ?d ?e] =>
      destruct (executorNew a b c d e) as [mem st]
  end.
  injection H as <-. cbn. repeat split.
  unfold loadPhysicsObjects in Hload.
  apply bind_Ok_inv in Hload as (st' & _ & Hload).
  destruct (processRigidBodyAssets (src_convex_hulls st') (src_objs st') false)
    as [assets|]; [|discriminate].
  apply bind_Ok_inv in Hload as (assets' & _ & Hload).
  injection Hload as <-. exists assets'. reflexivity.
Qed.

Lemma Impl_init_inv (mgr_cfg : Config) (viz : option Z) (impl : Impl) :
  Impl_init mgr_cfg viz = Ok impl ->
  cfg impl = mgr_cfg /\ runCount impl = 0%nat /\
  (kind impl = CPUImpl /\ execMode mgr_cfg = ExecMode_CPU \/
   kind impl = CUDAImpl /\ execMode mgr_cfg = ExecMode_CUDA /\
   MADRONA_CUDA_SUPPORT = true) /\
  exists assets, loadedBodies (physicsLoader impl) = [assets].
Proof.
  unfold Impl_init, MADRONA_UNREACHABLE.
  destruct (execMode mgr_cfg =? ExecMode_CUDA) eqn:Ecuda.
  - destruct MADRONA_CUDA_SUPPORT; [|discriminate].
    destruct (cudaSetup (gpuID mgr_cfg)); [|discriminate].
    intros H. apply init_backend_inv in H as (Hk & Hc & Hr & _ & Ha).
    apply Z.eqb_eq in Ecuda. auto 10.
  - destruct (execMode mgr_cfg =? ExecMode_CPU) eqn:Ecpu; [|discriminate].
    intros H. apply init_backend_inv in H as (Hk & Hc & Hr & _ & Ha).
    apply Z.eqb_eq in Ecpu. auto 10.
Qed.

(** X9: a Manager the constructor returns holds the configuration it was
    given, has the backend variant its [execMode] names (the CUDA variant
    only in a CUDA build) and has loaded exactly one rigid-body catalog;
    its exported regions and simulation state are what one task-graph pass
    returns on the state the resets left, whose simulation state is still
    the one backend initialisation produced. *)
Theorem Manager_new_result (cfg_ : Config) (viz : option Z) (m : Manager) :
  Manager_new cfg_ viz = Ok m ->
  cfg (impl_ m) = cfg_ /\
  (kind (impl_ m) = CPUImpl /\ execMode cfg_ = ExecMode_CPU \/
   kind (impl_ m) = CUDAImpl /\ execMode cfg_ = ExecMode_CUDA /\
   MADRONA_CUDA_SUPPORT = true) /\
  (exists assets, loadedBodies (physicsLoader (impl_ m)) = [assets]) /\
  (exists impl pre,
     Impl_init cfg_ viz = Ok impl /\
     foldM triggerReset (counter_values (to_int32 (numWorlds cfg_)))
       {| impl_ := impl |} = Ok pre /\
     simState (impl_ pre) = simState impl /\
     (exported (impl_ m), simState (impl_ m)) =
       taskgraph (kind impl) (exported (impl_ pre), simState (impl_ pre))) /\
  runCount (impl_ m) = 1%nat.
Proof.
  unfold Manager_new. intros H.
  apply bind_Ok_inv in H as (impl & Hinit & H).
  apply bind_Ok_inv in H as (pre & Hfold & H).
  injection H as <-.
  pose proof (triggerReset_all_keeps_rest _ _ _ Hfold) as (Hkp & Hsp & _).
  cbn [impl_] in Hkp, Hsp.
  assert (Hpass : exists impl0 pre0,
             Impl_init cfg_ viz = Ok impl0 /\
             foldM triggerReset (counter_values (to_int32 (numWorlds cfg_)))
               {| impl_ := impl0 |} = Ok pre0 /\
             simState (impl_ pre0) = simState impl0 /\
             (exported (impl_ (step pre)), simState (impl_ (step pre))) =
               taskgraph (kind impl0)
                 (exported (impl_ pre0), simState (impl_ pre0))).
  { exists impl, pre. split; [exact Hinit|]. split; [exact Hfold|].
    split; [exact Hsp|].
    cbn [step impl_]. rewrite Impl_run_pass, Hkp. reflexivity. }
  apply Impl_init_inv in Hinit as (Hc & Hr & Hk & Ha).
  rewrite foldM_triggerReset_calls in Hfold.
  pose proof (calls_cfg _ _ _ Hfold) as Hcfg.
  apply calls_static in Hfold as (Hk' & Hp' & _ & Hr').
  rewrite count_steps_resets in Hr'. cbn [impl_] in *.
  assert (Hs : kind (impl_ (step pre)) = kind (impl_ pre) /\
               physicsLoader (impl_ (step pre)) = physicsLoader (impl_ pre) /\
               runCount (impl_ (step pre)) = S (runCount (impl_ pre))).
  { cbn [step impl_]. unfold Impl_run.
    destruct (taskgraph (kind (impl_ pre))
                (exported (impl_ pre), simState (impl_ pre))).
    cbn. auto. }
  destruct Hs as (Hsk & Hsp' & Hsr).
  split; [cbn [step impl_]; rewrite Impl_run_cfg; congruence|].
  split; [rewrite Hsk, Hk'; exact Hk|].
  split; [rewrite Hsp', Hp'; exact Ha|].
  split; [exact Hpass|].
  rewrite Hsr, Hr', Hr. reflexivity.
Qed.

Lemma counter_values_nonpos (n : Z) : n <= 0 -> counter_values n = [].
Proof.
  intros H. unfold counter_values.
  replace (Z.to_nat n) with 0%nat by lia. reflexivity.
Qed.

(** X10: when [(int32_t)cfg.numWorlds] is zero or negative the
    constructor's loop body never runs: the constructor initialises the
    backend and performs its one step without requesting any reset. *)
Theorem Manager_new_without_worlds (cfg_ : Config) (viz : option Z) :
  to_int32 (numWorlds cfg_) <= 0 ->
  Manager_new cfg_ viz =
    bind (Impl_init cfg_ viz) (fun impl => Ok (step {| impl_ := impl |})).
Proof.
  intros H. unfold Manager_new.
  rewrite (counter_values_nonpos _ H). reflexivity.
Qed.

End Sequences.

(** * Further properties of the rollout queue *)

Lemma output_tensors_length (iface : TrainInterface) :
  Z.of_nat (length (output_tensors iface)) = output_offset iface - 2.
Proof.
  unfold output_tensors, output_offset.
  rewrite !length_app, !length_map.
  destruct (policyAssignments iface); cbn [length]; lia.
Qed.

Lemma Forall_imap_all {A B : Type} (Q : B -> Prop) (f : nat -> A -> B)
  (l : list A) :
  (forall k x, Q (f k x)) -> Forall Q (imap f l).
Proof.
  revert f. induction l as [|x l IH]; intros f H; [constructor|].
  rewrite imap_cons. constructor; [apply H|].
  apply IH. intros k y. apply H.
Qed.

Lemma filter_imap_none {A B : Type} (q : B -> bool) (f : nat -> A -> B)
  (l : list A) :
  (forall k x, q (f k x) = false) -> List.filter q (imap f l) = [].
Proof.
  revert f. induction l as [|x l IH]; intros f H; [reflexivity|].
  rewrite imap_cons. cbn [List.filter]. rewrite H.
  apply IH. intros k y. apply H.
Qed.

(** X11: with [n = output_offset], one rollout enqueues [n + 1]
    operations and reads the caller's array only at elements 0, 1 and
    [n + 2 .. 2n - 1]: two arrays that agree there give the same queue, so
    elements [2 .. n + 1] are never used. *)
Theorem gpuRollout_footprint (strm : Z) (buffers : Z -> Ptr)
  (iface : TrainInterface) :
  Z.of_nat (length (gpuRollout strm buffers iface)) = output_offset iface + 1 /\
  forall buffers' : Z -> Ptr,
    (forall i, rollout_slot iface i -> buffers' i = buffers i) ->
    gpuRollout strm buffers' iface = gpuRollout strm buffers iface.
Proof.
  pose proof (output_tensors_length iface) as Hlen. split.
  - rewrite gpuRollout_queue, length_app, length_imap. cbn [length]. lia.
  - intros buffers' Hsame. unfold rollout_slot in Hsame.
    rewrite !gpuRollout_queue.
    rewrite !(Hsame 0), !(Hsame 1) by auto. f_equal.
    apply imap_ext. intros k x Hk. cbn.
    apply lookup_lt_Some in Hk.
    rewrite Hsame by lia. reflexivity.
Qed.

(** X12: every operation of a rollout is enqueued on the caller's stream,
    and the step launch is its only operation that is not a copy: it
    stands third, after the two input copies and before every output
    copy. *)
Theorem gpuRollout_single_launch (strm : Z) (buffers : Z -> Ptr)
  (iface : TrainInterface) :
  Forall (fun op => op_stream op = strm) (gpuRollout strm buffers iface) /\
  List.filter (fun op => negb (is_copy op)) (gpuRollout strm buffers iface)
    = [RunAsync strm] /\
  gpuRollout strm buffers iface !! 2%nat = Some (RunAsync strm) /\
  forall k op, gpuRollout strm buffers iface !! k = Some op ->
               k <> 2%nat -> is_copy op = true.
Proof.
  rewrite gpuRollout_queue. split; [|split; [|split]].
  - apply Forall_app. split.
    + repeat constructor.
    + apply Forall_imap_all. reflexivity.
  - cbn [app List.filter copyToSim is_copy negb].
    f_equal. apply filter_imap_none. reflexivity.
  - reflexivity.
  - intros k op Hk Hne.
    destruct k as [|[|[|k]]]; cbn in Hk; try congruence;
      try (injection Hk as <-; reflexivity).
    assert (Hall : Forall (fun o => is_copy o = true)
              (imap (fun k t => copyFromSim strm
                       (buffers (output_offset iface + 2 + Z.of_nat k)) t)
                    (output_tensors iface)))
      by (apply Forall_imap_all; reflexivity).
    rewrite Forall_lookup in Hall. exact (Hall k op Hk).
Qed.

(** X14: the byte count [numTensorBytes] computes is the product of the
    dimensions times the element width reduced modulo 2^64: it is that
    product when the product fits, it is 0 when some dimension is 0, and
    for a tensor without dimensions it is the element width. *)
Theorem numTensorBytes_product (t : Tensor) :
  numTensorBytes t =
    (fold_right Z.mul 1 (dims t) * numBytesPerItem t) mod two64 /\
  (0 <= fold_right Z.mul 1 (dims t) * numBytesPerItem t < two64 ->
   numTensorBytes t = fold_right Z.mul 1 (dims t) * numBytesPerItem t) /\
  (In 0 (dims t) -> numTensorBytes t = 0) /\
  (dims t = [] -> numTensorBytes t = numBytesPerItem t).
Proof.
  rewrite numTensorBytes_spec. unfold tensor_bytes.
  split; [reflexivity|]. split; [|split].
  - intros H. now apply Z.mod_small.
  - intros H.
    assert (Hz : fold_right Z.mul 1 (dims t) = 0).
    { induction (dims t) as [|d ds IH]; [destruct H|].
      cbn [fold_right]. destruct H as [->|H]; [apply Z.mul_0_l|].
      rewrite (IH H). apply Z.mul_0_r. }
    rewrite Hz. reflexivity.
  - intros ->. cbn [fold_right]. rewrite Z.mul_1_l.
    apply Z.mod_small. unfold numBytesPerItem, two64.
    destruct (type t); cbn; lia.
Qed.

Section RolloutStep.
Context `{P : Platform}.

(** X13: on the CUDA backend [gpuRolloutStep] enqueues twelve operations:
    actions from element 0 and resets from element 1 of the caller's
    array, the launch, then rewards, dones and the seven observations
    (self, partners, roomEntities, door, lidar, stepsRemaining, agentID)
    to elements 13 to 21. *)
Theorem gpuRolloutStep_layout (m : Manager) (strm : Z) (buffers : Z -> Ptr) :
  kind (impl_ m) = CUDAImpl ->
  gpuRolloutStep m strm buffers =
    Ok [copyToSim strm (actionTensor m) (buffers 0);
        copyToSim strm (resetTensor m) (buffers 1);
        RunAsync strm;
        copyFromSim strm (buffers 13) (rewardTensor m);
        copyFromSim strm (buffers 14) (doneTensor m);
        copyFromSim strm (buffers 15) (selfObservationTensor m);
        copyFromSim strm (buffers 16) (partnerObservationsTensor m);
        copyFromSim strm (buffers 17) (roomEntityObservationsTensor m);
        copyFromSim strm (buffers 18) (doorObservationTensor m);
        copyFromSim strm (buffers 19) (lidarTensor m);
        copyFromSim strm (buffers 20) (stepsRemainingTensor m);
        copyFromSim strm (buffers 21) (agentIDTensor m)].
Proof.
  intros Hk. unfold gpuRolloutStep. rewrite Hk. reflexivity.
Qed.

(** X16: the thirteen tensor accessors read thirteen different export
    slots, all below [NumExports]; none of them exposes the
    [CheckpointSave] slot; and the tensor carries no GPU id on the CPU
    backend and [cfg.gpuID] on the CUDA backend. *)
Theorem accessors_use_distinct_slots (m : Manager) :
  (forall a : Accessor,
     devicePtr (access a m) =
       getExported (kind (impl_ m)) (ExportID_val (accessor_slot a)) /\
     0 <= ExportID_val (accessor_slot a) < ExportID_NumExports /\
     accessor_slot a <> CheckpointSave_ /\
     gpu_id (access a m) =
       match kind (impl_ m) with
       | CPUImpl => None
       | CUDAImpl => Some (gpuID (cfg (impl_ m)))
       end) /\
  (forall a b : Accessor,
     ExportID_val (accessor_slot a) = ExportID_val (accessor_slot b) -> a = b).
Proof.
  split.
  - intros a. unfold ExportID_NumExports.
    destruct a; cbn; repeat split; try lia; discriminate.
  - intros a b. destruct a, b; cbn; intros H;
      first [reflexivity | discriminate H].
Qed.

End RolloutStep.

(** * Further properties of the asset set-up *)

Lemma load_inv {A : Type} (buf : list A) (idx : Z) (a : A) :
  load buf idx = Ok a -> 0 <= idx /\ buf !! Z.to_nat idx = Some a.
Proof.
  unfold load. destruct (0 <=? idx) eqn:E; [|discriminate].
  apply Z.leb_le in E.
  destruct (buf !! Z.to_nat idx); [|discriminate].
  intros H. injection H as <-. auto.
Qed.

Section Hulls.
Context `{P : Platform}.

Lemma push_meshes_spec (meshes hulls : list SourceMesh)
  (ps : list SourceCollisionPrimitive) :
  push_meshes meshes hulls ps =
  (hulls ++ meshes, ps ++ hull_prims (length hulls) meshes).
Proof.
  revert hulls ps. induction meshes as [|mesh rest IH]; intros hulls ps.
  - cbn. now rewrite !app_nil_r.
  - cbn [push_meshes]. rewrite IH. unfold hull_prims.
    rewrite imap_cons, <- !app_assoc. cbn [app]. f_equal. f_equal. f_equal.
    + rewrite length_app. cbn [length]. do 3 f_equal. lia.
    + apply imap_ext. intros k x _. cbn.
      rewrite length_app. cbn [length]. do 3 f_equal. lia.
Qed.

Lemma setupHull_inv (objects : list (list SourceMesh)) (o : SimObject)
  (inv_mass : spec_float) (fr : RigidBodyFrictionData) (st st' : HullSetup) :
  setupHull objects o inv_mass fr st = Ok st' ->
  exists ms,
    objects !! Z.to_nat (SimObject_val o) = Some ms /\
    st' = {| src_convex_hulls := src_convex_hulls st ++ ms;
             prim_arrays :=
               prim_arrays st ++ [hull_prims (length (src_convex_hulls st)) ms];
             src_objs :=
               <[Z.to_nat (SimObject_val o) :=
                   {| prims := hull_prims (length (src_convex_hulls st)) ms;
                      invMass := inv_mass; friction := fr |}]> (src_objs st) |}.
Proof.
  unfold setupHull. intros H.
  apply bind_Ok_inv in H as (ms & Hload & H).
  apply load_inv in Hload as [_ Hms].
  rewrite push_meshes_spec in H. cbn [app] in H.
  apply bind_Ok_inv in H as (objs & Hst & H).
  apply store_inv in Hst as [_ ->].
  injection H as <-. exists ms. auto.
Qed.

Lemma hull_of_prims (pre ms post : list SourceMesh) :
  Z.of_nat (length (pre ++ ms ++ post)) <= 4294967296 ->
  map (hull_of (pre ++ ms ++ post)) (hull_prims (length pre) ms) = map Some ms.
Proof.
  revert pre. induction ms as [|m ms IH]; intros pre Hlen; [reflexivity|].
  unfold hull_prims. rewrite imap_cons. cbn [map]. f_equal.
  - unfold hull_of. cbn [hullIDX].
    rewrite !length_app in Hlen. cbn [length] in Hlen.
    rewrite Z.mod_small by lia.
    rewrite Nat2Z.id, Nat.add_0_r.
    change ((m :: ms) ++ post) with (m :: ms ++ post).
    now apply list_lookup_middle.
  - replace (pre ++ (m :: ms) ++ post) with ((pre ++ [m]) ++ ms ++ post)
      by (rewrite <- app_assoc; reflexivity).
    etransitivity; [|apply (IH (pre ++ [m]))].
    + f_equal. apply imap_ext. intros k x _. cbn.
      rewrite length_app. cbn [length]. do 3 f_equal. lia.
    + rewrite <- app_assoc. exact Hlen.
Qed.

Lemma hull_prims_all_hull (off : nat) (ms : list SourceMesh) :
  Forall (fun p => prim_type p = Hull) (hull_prims off ms).
Proof. apply Forall_imap_all. reflexivity. Qed.

Ltac same_hulls :=
  cbn [app]; rewrite ?app_nil_r; repeat rewrite <- app_assoc; reflexivity.

Ltac hulls_fit H :=
  cbn [app]; rewrite ?app_nil_r;
  repeat rewrite length_app in H; repeat rewrite length_app; lia.

(** X15: after [buildSourceObjects], each of the six mesh-backed objects
    (every kind but the plane) has only hull primitives, one per imported
    mesh of that object and in the same order, and each primitive's hull
    index selects exactly that mesh in the shared hull array, as long as
    the array has at most 2^32 hulls. *)
Theorem hull_primitives_select_their_meshes
  (objects : list (list SourceMesh)) (st : HullSetup) (o : SimObject)
  (ms : list SourceMesh) :
  importFromDisk asset_paths = inr objects ->
  buildSourceObjects = Ok st ->
  Z.of_nat (length (src_convex_hulls st)) <= 4294967296 ->
  o <> Plane ->
  objects !! Z.to_nat (SimObject_val o) = Some ms ->
  exists obj,
    src_objs st !! Z.to_nat (SimObject_val o) = Some obj /\
    Forall (fun p => prim_type p = Hull) (prims obj) /\
    map (hull_of (src_convex_hulls st)) (prims obj) = map Some ms.
Proof.
  intros Himp Hbuild Hlen Ho Hms.
  unfold buildSourceObjects in Hbuild. rewrite Himp in Hbuild.
  apply bind_Ok_inv in Hbuild as (s0 & H0 & Hbuild).
  apply bind_Ok_inv in Hbuild as (s1 & H1 & Hbuild).
  apply bind_Ok_inv in Hbuild as (s2 & H2 & Hbuild).
  apply bind_Ok_inv in Hbuild as (s3 & H3 & Hbuild).
  apply bind_Ok_inv in Hbuild as (s4 & H4 & Hbuild).
  apply bind_Ok_inv in Hbuild as (s5 & H5 & Hbuild).
  apply bind_Ok_inv in Hbuild as (objs & Hst & Hbuild).
  apply setupHull_inv in H0 as (m0 & L0 & ->).
  cbn [src_convex_hulls src_objs prim_arrays app] in H1.
  apply setupHull_inv in H1 as (m1 & L1 & ->).
  cbn [src_convex_hulls src_objs prim_arrays] in H2.
  apply setupHull_inv in H2 as (m2 & L2 & ->).
  cbn [src_convex_hulls src_objs prim_arrays] in H3.
  apply setupHull_inv in H3 as (m3 & L3 & ->).
  cbn [src_convex_hulls src_objs prim_arrays] in H4.
  apply setupHull_inv in H4 as (m4 & L4 & ->).
  cbn [src_convex_hulls src_objs prim_arrays] in H5.
  apply setupHull_inv in H5 as (m5 & L5 & ->).
  cbn [src_convex_hulls src_objs prim_arrays] in Hst, Hbuild.
  apply store_inv in Hst as [_ ->].
  injection Hbuild as <-.
  cbn [src_convex_hulls src_objs app] in *.
  destruct o; try congruence; clear Ho;
    eexists; (split; [reflexivity|]);
    (split; [apply hull_prims_all_hull|]); cbn [prims].
  - assert (ms = m0) as -> by congruence.
    rewrite <- (hull_of_prims [] m0 (m1 ++ m2 ++ m3 ++ m4 ++ m5));
      [do 2 f_equal; same_hulls | hulls_fit Hlen].
  - assert (ms = m1) as -> by congruence.
    rewrite <- (hull_of_prims m0 m1 (m2 ++ m3 ++ m4 ++ m5));
      [do 2 f_equal; same_hulls | hulls_fit Hlen].
  - assert (ms = m2) as -> by congruence.
    rewrite <- (hull_of_prims (m0 ++ m1) m2 (m3 ++ m4 ++ m5));
      [do 2 f_equal; same_hulls | hulls_fit Hlen].
  - assert (ms = m3) as -> by congruence.
    rewrite <- (hull_of_prims ((m0 ++ m1) ++ m2) m3 (m4 ++ m5));
      [do 2 f_equal; same_hulls | hulls_fit Hlen].
  - assert (ms = m4) as -> by congruence.
    rewrite <- (hull_of_prims (((m0 ++ m1) ++ m2) ++ m3) m4 m5);
      [do 2 f_equal; same_hulls | hulls_fit Hlen].
  - assert (ms = m5) as -> by congruence.
    rewrite <- (hull_of_prims ((((m0 ++ m1) ++ m2) ++ m3) ++ m4) m5 []);
      [do 2 f_equal; same_hulls | hulls_fit Hlen].
Qed.

(** X18: whatever the importer returned, a successful
    [buildSourceObjects] has assigned all seven source objects: their
    inverse masses and friction pairs are the ones written in the code
    (walls, doors and the plane have inverse mass 0), the plane has the
    single plane primitive, and one primitive array was built per
    mesh-backed object. *)
Theorem source_objects_all_assigned (st : HullSetup) :
  buildSourceObjects = Ok st ->
  map invMass (src_objs st) =
    [f32_0_075; f32_0; f32_0; f32_1; f32_1; f32_1; f32_0] /\
  map friction (src_objs st) =
    {| muS := f32_0_5; muD := f32_0_75 |}
    :: replicate 6 {| muS := f32_0_5; muD := f32_0_5 |} /\
  (prims <$> src_objs st !! Z.to_nat (SimObject_val Plane)) = Some [plane_prim] /\
  length (prim_arrays st) = 6%nat.
Proof.
  intros Hbuild. unfold buildSourceObjects in Hbuild.
  destruct (importFromDisk asset_paths) as [err|objects]; [discriminate|].
  apply bind_Ok_inv in Hbuild as (s0 & H0 & Hbuild).
  apply bind_Ok_inv in Hbuild as (s1 & H1 & Hbuild).
  apply bind_Ok_inv in Hbuild as (s2 & H2 & Hbuild).
  apply bind_Ok_inv in Hbuild as (s3 & H3 & Hbuild).
  apply bind_Ok_inv in Hbuild as (s4 & H4 & Hbuild).
  apply bind_Ok_inv in Hbuild as (s5 & H5 & Hbuild).
  apply bind_Ok_inv in Hbuild as (objs & Hst & Hbuild).
  apply setupHull_inv in H0 as (m0 & _ & ->).
  cbn [src_convex_hulls src_objs prim_arrays app] in H1.
  apply setupHull_inv in H1 as (m1 & _ & ->).
  cbn [src_convex_hulls src_objs prim_arrays] in H2.
  apply setupHull_inv in H2 as (m2 & _ & ->).
  cbn [src_convex_hulls src_objs prim_arrays] in H3.
  apply setupHull_inv in H3 as (m3 & _ & ->).
  cbn [src_convex_hulls src_objs prim_arrays] in H4.
  apply setupHull_inv in H4 as (m4 & _ & ->).
  cbn [src_convex_hulls src_objs prim_arrays] in H5.
  apply setupHull_inv in H5 as (m5 & _ & ->).
  cbn [src_convex_hulls src_objs prim_arrays] in Hst, Hbuild.
  apply store_inv in Hst as [_ ->].
  injection Hbuild as <-.
  repeat split.
Qed.

End Hulls.

Section ExecutorArguments.
Context `{P : Platform}.

Lemma map_const_counter_values {A : Type} (c : A) (n : Z) :
  map (fun _ => c) (counter_values n) = replicate (Z.to_nat n) c.
Proof.
  unfold counter_values. rewrite map_map.
  generalize 0%nat. induction (Z.to_nat n) as [|k IH]; intros start;
    [reflexivity|].
  cbn [seq map replicate]. f_equal. apply IH.
Qed.

(** X17: when [Impl::init] succeeds, the executor it holds was created
    for [numWorlds] worlds and [NumExports] exported buffers, with the
    viewer enabled exactly when a visualisation bridge was passed, the
    two trailing [Sim::Config] fields zero, and one init record per
    world; all records are equal and name the catalog of the loader the
    backend keeps. *)
Theorem Impl_init_executor_arguments (mgr_cfg : Config) (viz : option Z)
  (impl : Impl) :
  Impl_init mgr_cfg viz = Ok impl ->
  (exported impl, simState impl) =
    executorNew (kind impl) (numWorlds mgr_cfg) ExportID_NumExports
      {| enableViewer := match viz with Some _ => true | None => false end;
         autoReset := cfg_autoReset mgr_cfg;
         simFlags := cfg_simFlags mgr_cfg;
         rewardMode := cfg_rewardMode mgr_cfg;
         buttonWidth := cfg_buttonWidth mgr_cfg;
         doorWidth := cfg_doorWidth mgr_cfg;
         rewardPerDist := f32_0;
         slackReward := f32_0 |}
      (replicate (Z.to_nat (numWorlds mgr_cfg))
         {| wi_episodeMgr := {| curEpisode := 0 |};
            wi_rigidBodyObjMgr := loadedBodies (physicsLoader impl);
            wi_vizBridge := viz;
            wi_progress := f32_0 |}).
Proof.
  assert (Hb : forall k sim_cfg,
             init_backend k mgr_cfg viz sim_cfg = Ok impl ->
             (exported impl, simState impl) =
               executorNew (kind impl) (numWorlds mgr_cfg)
                 ExportID_NumExports sim_cfg
                 (replicate (Z.to_nat (numWorlds mgr_cfg))
                    {| wi_episodeMgr := {| curEpisode := 0 |};
                       wi_rigidBodyObjMgr := loadedBodies (physicsLoader impl);
                       wi_vizBridge := viz;
                       wi_progress := f32_0 |})).
  { intros k sim_cfg H. unfold init_backend in H.
    apply bind_Ok_inv in H as (loader & _ & H).
    rewrite map_const_counter_values in H.
    match type of H with
    | context [executorNew ?a ?b ?c ?d ?e] =>
        destruct (executorNew a b c d e) as [mem s] eqn:E
    end.
    injection H as <-. cbn. now rewrite E. }
  unfold Impl_init, MADRONA_UNREACHABLE.
  destruct (execMode mgr_cfg =? ExecMode_CUDA).
  - destruct MADRONA_CUDA_SUPPORT; [|discriminate].
    destruct (cudaSetup (gpuID mgr_cfg)); [|discriminate]. apply Hb.
  - destruct (execMode mgr_cfg =? ExecMode_CPU); [|discriminate]. apply Hb.
Qed.

End ExecutorArguments.

(** * The properties on the concrete platform *)

#[local] Existing Instance Fixture.cpu.



Lemma fixture_executor_contract (cuda : bool) :
  executor_contract (P := Fixture.platform cuda).
Proof.
  intros k n ne sim_cfg inits Hn. unfold sized_for. cbn.
  rewrite !length_replicate. lia.
Qed.

Lemma fixture_manager_wf : Manager_wf Fixture.manager.
Proof.
  split.
  - cbn. unfold ExecMode_CPU, ExecMode_CUDA. discriminate.
  - unfold sized_for. cbn. repeat split.
Qed.

Lemma fixture_init :
  Impl_init (P := Fixture.cpu) Fixture.cpu_config None = Ok Fixture.init_impl.
Proof. vm_compute. reflexivity. Qed.

Lemma fixture_init_state :
  simState Fixture.init_impl = 0%nat /\ kind Fixture.init_impl = CPUImpl.
Proof. vm_compute. split; reflexivity. Qed.

Lemma Manager_new_resets_then_steps_witness :
  exists pre,
    Manager_new (P := Fixture.cpu) Fixture.cpu_config None = Ok (step pre) /\
    (forall i, 0 <= i < 4 ->
       resetBuf (exported (impl_ pre)) !! Z.to_nat i = Some {| reset := 1 |}) /\
    simState (impl_ pre) = 0%nat /\
    simState (impl_ (step pre)) = 1%nat /\
    runCount (impl_ (step pre)) = 1%nat.
Proof.
  destruct (Manager_new_resets_then_steps Fixture.cpu_config None
              Fixture.init_impl
              (fixture_executor_contract false)
              ltac:(cbn; unfold INT32_MAX; lia) fixture_init)
    as (pre & _ & Hnew & Hflags & _ & _ & _ & Hsim & Hpass & _ & Hone).
  destruct fixture_init_state as [Hs0 Hk0].
  exists pre. split; [exact Hnew|]. split; [exact Hflags|].
  split; [now rewrite Hsim|]. split; [|exact Hone].
  pose proof (f_equal snd Hpass) as Hs. rewrite Hk0 in Hs.
  change (simState (impl_ (step pre)) = S (simState (impl_ pre))) in Hs.
  now rewrite Hs, Hsim, Hs0.
Defined.

Lemma fixture_loader :
  loadPhysicsObjects (P := Fixture.cpu) (PhysicsLoader_new ExecMode_CPU 10)
  = Ok Fixture.loader.
Proof. vm_compute. reflexivity. Qed.

Lemma fixture_init_cpu (cfg_ : Config) :
  execMode cfg_ = ExecMode_CPU ->
  Impl_init (P := Fixture.cpu) cfg_ None =
    Ok (@Build_Impl Fixture.cpu CPUImpl cfg_ Fixture.loader
          {| curEpisode := 0 |} (Fixture.fresh_exports 2 (numWorlds cfg_))
          0%nat 0%nat).
Proof.
  intros Hmode. unfold Impl_init. rewrite Hmode.
  change (ExecMode_CPU =? ExecMode_CUDA) with false.
  change (ExecMode_CPU =? ExecMode_CPU) with true.
  cbv iota. unfold init_backend. rewrite fixture_loader. reflexivity.
Qed.

Lemma fresh_exports_first_reset (agents n : Z) :
  0 < n ->
  resetBuf (Fixture.fresh_exports agents n) !! 0%nat = Some {| reset := 0 |}.
Proof.
  intros Hn. unfold Fixture.fresh_exports. cbn [resetBuf].
  apply lookup_replicate_2. lia.
Qed.

Lemma constructor_skips_resets_above_int32 :
  Impl_init (P := Fixture.cpu) Fixture.wide_config None = Ok Fixture.wide_impl /\
  counter_values (to_int32 (numWorlds Fixture.wide_config)) = [] /\
  Manager_new (P := Fixture.cpu) Fixture.wide_config None
    = Ok (step Fixture.wide_manager) /\
  0 <= 0 < numWorlds Fixture.wide_config /\
  resetBuf (exported (impl_ Fixture.wide_manager)) !! Z.to_nat 0
    = Some {| reset := 0 |}.
Proof.
  assert (Hinit : Impl_init (P := Fixture.cpu) Fixture.wide_config None
                  = Ok Fixture.wide_impl)
    by exact (fixture_init_cpu Fixture.wide_config eq_refl).
  assert (Hloop : counter_values (to_int32 (numWorlds Fixture.wide_config)) = []).
  { apply counter_values_nonpos. vm_compute. discriminate. }
  split; [exact Hinit|]. split; [exact Hloop|]. split; [|split].
  - unfold Manager_new. rewrite Hinit. cbn [bind]. rewrite Hloop.
    reflexivity.
  - split; reflexivity.
  - exact (fresh_exports_first_reset 2 (numWorlds Fixture.wide_config) eq_refl).
Qed.

Lemma tensor_shapes_fixed_witness :
  exists m',
    calls [CallTriggerReset 2; CallStep; CallSetAction 3 1 1 0 2 0; CallStep]
          Fixture.manager = Ok m' /\
    dims (actionTensor m') = [8; 4] /\
    dims (rewardTensor m') = [8; 1] /\
    dims (partnerObservationsTensor m') = [8; 1; 3].
Proof.
  assert (H : exists m',
             calls [CallTriggerReset 2; CallStep; CallSetAction 3 1 1 0 2 0;
                    CallStep] Fixture.manager = Ok m')
    by (eexists; reflexivity).
  destruct H as (m' & H). exists m'. split; [exact H|].
  exact (proj2 (proj2 (proj2 (tensor_shapes_fixed Fixture.manager
                                ltac:(cbn; lia)))) _ m' H).
Defined.

Lemma leading_dimension_wraps :
  numWorlds (cfg (impl_ Fixture.wide_manager)) * numAgents = 4294967296 /\
  dims (actionTensor Fixture.wide_manager) = [0; 4] /\
  dims (rewardTensor Fixture.wide_manager) = [0; 1] /\
  dims (partnerObservationsTensor Fixture.wide_manager) = [0; 1; 3].
Proof. repeat split; lazy; reflexivity. Qed.



Lemma rewards_copy_not_sized_by_destination :
  ~ sized_by_destination 0 Fixture.buffers Fixture.iface.
Proof.
  intros H.
  destruct (H 10512 200 32 0) as (t & Hin & Hptr & _).
  - vm_compute. do 3 right. left. reflexivity.
  - cbn in Hin.
    repeat match goal with
    | Hd : _ \/ _ |- _ => destruct Hd as [<-|Hd]
    end; try discriminate Hptr.
    contradiction.
Qed.


Lemma fixture_source_objects :
  buildSourceObjects (P := Fixture.cpu) = Ok Fixture.source_objects.
Proof. vm_compute. reflexivity. Qed.

Lemma fixture_agent_metadata :
  metadatas Fixture.processed_assets !! Z.to_nat (SimObject_val Agent) =
  Some Fixture.agent_metadata.
Proof. vm_compute. reflexivity. Qed.

Lemma agent_inertia_constrained_witness :
  exists loader md',
    loadPhysicsObjects (P := Fixture.cpu)
      (PhysicsLoader_new ExecMode_CPU 10) = Ok loader /\
    (exists assets,
       loadedBodies loader = [assets] /\
       metadatas assets !! 3%nat = Some md') /\
    Vector3.x (invInertiaTensor (mass md')) = f32_0 /\
    Vector3.y (invInertiaTensor (mass md')) = f32_0 /\
    Vector3.z (invInertiaTensor (mass md')) = f32_0_75.
Proof.
  destruct (agent_inertia_constrained (P := Fixture.cpu)
              (PhysicsLoader_new ExecMode_CPU 10)
              Fixture.source_objects Fixture.processed_assets
              Fixture.agent_metadata
              fixture_source_objects eq_refl fixture_agent_metadata)
    as (md' & Hload & Hx & Hy & Hz & _).
  eexists. exists md'.
  split; [exact Hload|]. split; [|split; [exact Hx|split; [exact Hy|exact Hz]]].
  eexists. split; [reflexivity|].
  cbn [with_metadatas metadatas]. apply list_lookup_insert_eq.
  exact (lookup_lt_Some _ _ _ fixture_agent_metadata).
Defined.

Lemma gpuRollout_order_witness :
  gpuRollout 7 Fixture.buffers Fixture.iface_full =
    [MemcpyAsyncD2D 100 10000 128 7;
     MemcpyAsyncD2D 400 10064 16 7;
     RunAsync 7;
     MemcpyAsyncD2D 10576 200 32 7;
     MemcpyAsyncD2D 10640 300 32 7;
     MemcpyAsyncD2D 10704 700 32 7;
     MemcpyAsyncD2D 10768 500 160 7;
     MemcpyAsyncD2D 10832 800 32 7].
Proof.
  rewrite (gpuRollout_order 7 Fixture.buffers Fixture.iface_full).
  reflexivity.
Defined.

Lemma gpuRollout_output_slots_witness :
  gpuRollout 7 Fixture.buffers Fixture.iface =
    [MemcpyAsyncD2D 100 10000 128 7;
     MemcpyAsyncD2D 400 10064 16 7;
     RunAsync 7;
     MemcpyAsyncD2D 10512 200 32 7;
     MemcpyAsyncD2D 10576 300 32 7;
     MemcpyAsyncD2D 10640 500 160 7;
     MemcpyAsyncD2D 10704 600 1920 7] /\
  gpuRollout 7 (fun i => if (i =? 6) || (i =? 7) then 0 else Fixture.buffers i)
             Fixture.iface
  = gpuRollout 7 Fixture.buffers Fixture.iface.
Proof.
  split.
  - rewrite (proj1 (gpuRollout_output_slots 7 Fixture.buffers Fixture.iface)).
    reflexivity.
  - apply (proj2 (gpuRollout_output_slots 7 Fixture.buffers Fixture.iface)).
    intros i H6 H7. cbn in H6, H7.
    destruct (Z.eqb_spec i 6); [lia|]. destruct (Z.eqb_spec i 7); [lia|].
    reflexivity.
Defined.

Lemma load_checkpoint_stays_armed_witness :
  exists m1 m2,
    triggerLoadCheckpoint Fixture.manager 1 = Ok m1 /\
    calls [CallTriggerLoadCheckpoint 0; CallSetSaveCheckpoint 1 0;
           CallTriggerReset 1; CallSetAction 1 0 0 0 0 0] m1 = Ok m2 /\
    loadBuf (exported (impl_ m2)) !! 1%nat = Some {| ckpt_reset := 1 |} /\
    exists m3,
      setSaveCheckpoint m1 1 0 = Ok m3 /\
      saveBuf (exported (impl_ m3)) !! 1%nat = Some {| save := 0 |}.
Proof.
  destruct (load_checkpoint_stays_armed Fixture.manager 1 fixture_manager_wf
              ltac:(cbn; lia))
    as ((m1 & Htrig & Hflag & Hstays) & _).
  exists m1. eexists. split; [exact Htrig|].
  injection Htrig as <-.
  split; [reflexivity|]. split.
  - apply (Hstays [CallTriggerLoadCheckpoint 0; CallSetSaveCheckpoint 1 0;
                   CallTriggerReset 1; CallSetAction 1 0 0 0 0 0]);
      reflexivity.
  - eexists. split; reflexivity.
Defined.

(** ** The further properties on the concrete platform *)


Lemma fixture_new_manager :
  Manager_new (P := Fixture.cpu) Fixture.cpu_config None
  = Ok Fixture.new_manager.
Proof. vm_compute. reflexivity. Qed.

Lemma triggerReset_frame_witness :
  exists m',
    triggerReset Fixture.manager 2 = Ok m' /\
    resetBuf (exported (impl_ m')) !! 2%nat = Some {| reset := 1 |} /\
    resetBuf (exported (impl_ m')) !! 3%nat =
      resetBuf (exported (impl_ Fixture.manager)) !! 3%nat /\
    actionBuf (exported (impl_ m')) = actionBuf (exported (impl_ Fixture.manager)).
Proof.
  destruct (triggerReset_frame Fixture.manager 2 fixture_manager_wf
              ltac:(cbn; lia))
    as (m' & Hcall & Hslot & Hother & Hact & _).
  exists m'. split; [exact Hcall|]. split; [exact Hslot|].
  split; [apply Hother; cbn; lia|exact Hact].
Defined.

Lemma checkpoint_flags_frame_witness :
  (exists m1,
     setSaveCheckpoint Fixture.manager 3 1 = Ok m1 /\
     saveBuf (exported (impl_ m1)) !! 0%nat =
       saveBuf (exported (impl_ Fixture.manager)) !! 0%nat /\
     loadBuf (exported (impl_ m1)) = loadBuf (exported (impl_ Fixture.manager))) /\
  (exists m2,
     triggerLoadCheckpoint Fixture.manager 3 = Ok m2 /\
     saveBuf (exported (impl_ m2)) = saveBuf (exported (impl_ Fixture.manager))).
Proof.
  destruct (checkpoint_flags_frame Fixture.manager 3 1 fixture_manager_wf
              ltac:(cbn; lia))
    as ((m1 & Hs & Hso & _ & _ & Hsl) & (m2 & Hl & _ & _ & _ & Hls)).
  split.
  - exists m1. split; [exact Hs|]. split; [apply Hso; cbn; lia|exact Hsl].
  - exists m2. split; [exact Hl|exact Hls].
Defined.

Lemma reset_stays_requested_witness :
  exists m1 m2,
    triggerReset Fixture.manager 1 = Ok m1 /\
    calls [CallSetAction 1 0 1 2 3 0; CallSetSaveCheckpoint 1 1;
           CallTriggerLoadCheckpoint 1; CallTriggerReset 0] m1 = Ok m2 /\
    resetBuf (exported (impl_ m2)) !! 1%nat = Some {| reset := 1 |}.
Proof.
  destruct (reset_stays_requested Fixture.manager 1 fixture_manager_wf
              ltac:(cbn; lia))
    as (m1 & Htrig & Hstays).
  exists m1. eexists. split; [exact Htrig|].
  injection Htrig as <-. split; [reflexivity|].
  apply (Hstays [CallSetAction 1 0 1 2 3 0; CallSetSaveCheckpoint 1 1;
                 CallTriggerLoadCheckpoint 1; CallTriggerReset 0]);
    reflexivity.
Defined.


Lemma last_write_wins_witness :
  bind (setSaveCheckpoint Fixture.manager 2 1)
       (fun m1 => setSaveCheckpoint m1 2 0)
  = setSaveCheckpoint Fixture.manager 2 0.
Proof.
  exact (proj2 (last_write_wins Fixture.manager 2 0
                  {| moveAmount := 0; moveAngle := 0; rotate := 0; interact := 0 |}
                  {| moveAmount := 1; moveAngle := 1; rotate := 1; interact := 1 |}
                  1 0 fixture_manager_wf
                  ltac:(cbn; lia) ltac:(cbn; lia))).
Defined.


Lemma only_step_runs_task_graph_witness :
  exists m',
    calls [CallTriggerReset 1; CallSetAction 0 0 1 1 1 1;
           CallSetSaveCheckpoint 2 1] Fixture.manager = Ok m' /\
    simState (impl_ m') = 0%nat /\
    simState (impl_ (step m')) = 1%nat /\
    cfg (impl_ (step m')) = Fixture.cpu_config.
Proof.
  assert (H : exists m',
             calls [CallTriggerReset 1; CallSetAction 0 0 1 1 1 1;
                    CallSetSaveCheckpoint 2 1] Fixture.manager = Ok m')
    by (eexists; reflexivity).
  destruct H as (m' & H). exists m'. split; [exact H|].
  destruct (only_step_runs_task_graph _ _ _ H)
    as (_ & _ & _ & Hsame & Hpass & _ & Hcfg & _).
  pose proof (Hsame eq_refl) as Hs0.
  change (simState (impl_ m') = 0%nat) in Hs0.
  split; [exact Hs0|]. split; [|exact Hcfg].
  pose proof (f_equal snd Hpass) as Hs.
  change (simState (impl_ (step m')) = S (simState (impl_ m'))) in Hs.
  now rewrite Hs, Hs0.
Defined.

Lemma Manager_new_result_witness :
  cfg (impl_ Fixture.new_manager) = Fixture.cpu_config /\
  kind (impl_ Fixture.new_manager) = CPUImpl /\
  simState (impl_ Fixture.new_manager) = 1%nat.
Proof.
  destruct (Manager_new_result Fixture.cpu_config None Fixture.new_manager
              fixture_new_manager)
    as (Hc & Hkind & _ & (impl & pre & Hinit & _ & Hsim & Hpass) & _).
  destruct fixture_init_state as [Hs0 Hk0].
  rewrite fixture_init in Hinit. apply Ok_inj in Hinit. subst impl.
  split; [exact Hc|]. split.
  - destruct Hkind as [[Hk _]|[_ [_ Hsup]]]; [exact Hk|discriminate Hsup].
  - pose proof (f_equal snd Hpass) as Hs. rewrite Hk0 in Hs.
    change (simState (impl_ Fixture.new_manager) = S (simState (impl_ pre)))
      in Hs.
    now rewrite Hs, Hsim, Hs0.
Defined.

Lemma Manager_new_without_worlds_witness :
  Manager_new (P := Fixture.cpu) Fixture.no_worlds_config None =
    bind (Impl_init Fixture.no_worlds_config None)
         (fun impl => Ok (step {| impl_ := impl |})).
Proof.
  apply (Manager_new_without_worlds Fixture.no_worlds_config None).
  vm_compute. discriminate.
Defined.

Lemma gpuRolloutStep_layout_witness :
  exists q,
    gpuRolloutStep (P := Fixture.cuda) Fixture.cuda_manager 7 Fixture.buffers
    = Ok q /\
    q !! 3%nat =
      Some (MemcpyAsyncD2D 10832 12288 32 7) /\
    length q = 12%nat.
Proof.
  eexists. split.
  - apply (gpuRolloutStep_layout (P := Fixture.cuda)). reflexivity.
  - split; reflexivity.
Defined.

Lemma fixture_hulls_fit :
  Z.of_nat (length (src_convex_hulls Fixture.source_objects)) <= 4294967296.
Proof. vm_compute. discriminate. Qed.

Lemma hull_primitives_select_their_meshes_witness :
  exists obj,
    src_objs Fixture.source_objects !! 3%nat = Some obj /\
    map (hull_of (src_convex_hulls Fixture.source_objects)) (prims obj)
    = [Some 35%nat].
Proof.
  destruct (hull_primitives_select_their_meshes (P := Fixture.cpu)
              (map Fixture.mesh_of (asset_paths (P := Fixture.cpu)))
              Fixture.source_objects Agent [35%nat]
              eq_refl fixture_source_objects fixture_hulls_fit
              ltac:(discriminate) eq_refl)
    as (obj & Hobj & _ & Hmap).
  exists obj. split; [exact Hobj|exact Hmap].
Defined.

Lemma source_objects_all_assigned_witness :
  map invMass (src_objs Fixture.source_objects) =
    [f32_0_075; f32_0; f32_0; f32_1; f32_1; f32_1; f32_0] /\
  length (prim_arrays Fixture.source_objects) = 6%nat.
Proof.
  destruct (source_objects_all_assigned (P := Fixture.cpu)
              Fixture.source_objects fixture_source_objects)
    as (Hm & _ & _ & Hp).
  split; [exact Hm|exact Hp].
Defined.

Lemma Impl_init_executor_arguments_witness :
  exported Fixture.init_impl = Fixture.fresh_exports 2 4.
Proof.
  exact (f_equal fst
           (Impl_init_executor_arguments (P := Fixture.cpu)
              Fixture.cpu_config None Fixture.init_impl fixture_init)).
Defined.
